(** * app/schemas.py: the request and response models of the recommendation API

    The module declares eight Pydantic models and nothing else.  What a
    declaration means is given by the validation library: building a model
    from a parsed JSON document checks every declared field, substitutes
    defaults, collects one error per offending location, and dumping a model
    writes its fields back in declaration order.

    The development embeds
    - the declarations of the module, field by field, with the inheritance
      of [RecommendRequest] and [Itinerary];
    - the validation and dumping the library performs on such declarations.
      Conversions on which the two major releases of the library agree are
      written out; the others are fields of a [Library] record, and the one
      rule of field requiredness that changed between the releases is
      selected by a [release] argument.  Every general theorem holds for all
      libraries and both releases. *)

From Stdlib Require Import ZArith NArith List String Ascii Bool Lia.
From Stdlib Require Import Floats.PrimFloat Numbers.Cyclic.Int63.Uint63.
Import ListNotations.
Open Scope string_scope.
Open Scope list_scope.

Set Warnings "-register-all".

(** ** Parsed JSON documents

    A document as [json.loads] hands it to the models: integers and floats
    are distinct, an object is the list of its members in document order. *)

Inductive json : Type :=
| JNull
| JBool (b : bool)
| JInt (z : Z)
| JFloat (f : float)
| JStr (s : string)
| JArr (items : list json)
| JObj (members : list (string * json)).

(** First binding of a key in an association list. *)
Fixpoint assoc {A : Type} (k : string) (kvs : list (string * A)) : option A :=
  match kvs with
  | [] => None
  | (k', a) :: rest => if String.eqb k k' then Some a else assoc k rest
  end.

Definition keys {A : Type} (kvs : list (string * A)) : list string :=
  map fst kvs.

(** ** Validated values and validation errors *)

Inductive value : Type :=
| VNone
| VStr (s : string)
| VInt (z : Z)
| VFloat (f : float)
| VUuid (u : N)
| VList (items : list value)
| VDict (members : list (string * json))
| VModel (fields : list (string * value)).

Inductive loc_item : Type :=
| LKey (name : string)
| LIdx (index : nat).

Inductive error_kind : Type :=
| EMissing
| EInvalid.

Definition error : Type := (list loc_item * error_kind)%type.

Inductive result (A : Type) : Type :=
| Ok (a : A)
| Err (errors : list error).

Arguments Ok {A} a.
Arguments Err {A} errors.

Definition result_map {A B : Type} (f : A -> B) (r : result A) : result B :=
  match r with
  | Ok a => Ok (f a)
  | Err es => Err es
  end.

Definition of_option {A : Type} (loc : list loc_item) (o : option A) : result A :=
  match o with
  | Some a => Ok a
  | None => Err [(loc, EInvalid)]
  end.

(** Errors of all members are kept, in member order. *)
Definition collect {A B : Type} (r : result A) (rest : result (list B))
    (pack : A -> B) : result (list B) :=
  match r, rest with
  | Ok a, Ok l => Ok (pack a :: l)
  | Ok _, Err es => Err es
  | Err es, Ok _ => Err es
  | Err es, Err es' => Err (es ++ es')
  end.

(** ** Field declarations *)

Inductive default : Type :=
| Required
| Default (v : value).

Inductive ftype : Type :=
| TStr
| TInt
| TFloat
| TUuid
| TDict
| TList (item : ftype)
| TOptional (inner : ftype)
| TModel (fields : list (string * ftype * default)).

Definition field : Type := (string * ftype * default)%type.

Definition field_name (f : field) : string := fst (fst f).
Definition field_type (f : field) : ftype := snd (fst f).
Definition field_default (f : field) : default := snd f.

Definition is_optional (t : ftype) : bool :=
  match t with
  | TOptional _ => true
  | _ => false
  end.

(** ** The models of app/schemas.py *)

Module Schemas.

Definition SlotQuery_fields : list field :=
  [ ("query", TStr, Required) ].

Definition JobPreview_fields : list field :=
  [ ("job_id", TInt, Required);
    ("farm_name", TStr, Required);
    ("region", TStr, Required);
    ("tags", TList TStr, Required) ].

Definition TourPreview_fields : list field :=
  [ ("content_id", TInt, Required);
    ("title", TStr, Required);
    ("region", TStr, Required);
    ("overview", TStr, Required);
    ("image_url", TOptional TStr, Default VNone) ].

Definition SlotsResponse_fields : list field :=
  [ ("slots", TDict, Required);
    ("jobs_preview", TList (TModel JobPreview_fields), Required);
    ("tours_preview", TList (TModel TourPreview_fields), Required) ].

Definition RecommendationRequest_fields : list field :=
  [ ("query", TStr, Required);
    ("user_id", TOptional TUuid, Default VNone);
    ("budget", TInt, Required) ].

(** The body of [RecommendRequest]; [default_factory=list] gives a new empty
    list at every construction. *)
Definition RecommendRequest_own : list field :=
  [ ("selected_jobs", TList TInt, Default (VList []));
    ("selected_tours", TList TInt, Default (VList [])) ].

Definition ScheduleItem_fields : list field :=
  [ ("day", TInt, Required);
    ("date", TStr, Required);
    ("plan_items", TList TStr, Required);
    ("total_distance_km", TOptional TFloat, Required);
    ("total_cost_krw", TOptional TInt, Required) ].

(** The body of [Itinerary] is [pass]. *)
Definition Itinerary_own : list field := [].

Inductive model_class : Type :=
| SlotQuery
| JobPreview
| TourPreview
| SlotsResponse
| RecommendationRequest
| RecommendRequest
| ScheduleItem
| Itinerary.

Definition all_classes : list model_class :=
  [ SlotQuery; JobPreview; TourPreview; SlotsResponse;
    RecommendationRequest; RecommendRequest; ScheduleItem; Itinerary ].

(** The model a class derives from, [None] for a direct [BaseModel]. *)
Definition base (c : model_class) : option model_class :=
  match c with
  | RecommendRequest => Some RecommendationRequest
  | Itinerary => Some ScheduleItem
  | _ => None
  end.

(** The annotations written in the class body. *)
Definition declared (c : model_class) : list field :=
  match c with
  | SlotQuery => SlotQuery_fields
  | JobPreview => JobPreview_fields
  | TourPreview => TourPreview_fields
  | SlotsResponse => SlotsResponse_fields
  | RecommendationRequest => RecommendationRequest_fields
  | RecommendRequest => RecommendRequest_own
  | ScheduleItem => ScheduleItem_fields
  | Itinerary => Itinerary_own
  end.

(** Fields of a class: those of its base first, then its own.  No class of
    the module derives from a derived class, and none redeclares an
    inherited field. *)
Definition fields_of (c : model_class) : list field :=
  match base c with
  | Some b => declared b ++ declared c
  | None => declared c
  end.

End Schemas.

(** ** Scalar conversions fixed by both releases *)

Definition is_digit (c : ascii) : bool :=
  let n := nat_of_ascii c in (48 <=? n)%nat && (n <=? 57)%nat.

Definition is_letter (c : ascii) : bool :=
  let n := nat_of_ascii c in
  ((65 <=? n)%nat && (n <=? 90)%nat) || ((97 <=? n)%nat && (n <=? 122)%nat).

Fixpoint has_letter (s : string) : bool :=
  match s with
  | EmptyString => false
  | String c rest => is_letter c || has_letter rest
  end.

(** Value of a non-empty run of decimal digits, most significant first. *)
Fixpoint digits (s : string) (acc : Z) : option Z :=
  match s with
  | EmptyString => Some acc
  | String c rest =>
      if is_digit c
      then digits rest (10 * acc + Z.of_nat (nat_of_ascii c - 48))
      else None
  end.

Definition unsigned_decimal (s : string) : option Z :=
  match s with
  | EmptyString => None
  | _ => digits s 0
  end.

(** An optional sign followed by decimal digits. *)
Definition signed_decimal (s : string) : option Z :=
  match s with
  | String "-"%char rest => option_map Z.opp (unsigned_decimal rest)
  | String "+"%char rest => unsigned_decimal rest
  | _ => unsigned_decimal s
  end.

Definition hex_value (c : ascii) : option N :=
  let n := nat_of_ascii c in
  if (48 <=? n)%nat && (n <=? 57)%nat then Some (N.of_nat (n - 48))
  else if (97 <=? n)%nat && (n <=? 102)%nat then Some (N.of_nat (n - 87))
  else if (65 <=? n)%nat && (n <=? 70)%nat then Some (N.of_nat (n - 55))
  else None.

Fixpoint hex_number (cs : list ascii) (acc : N) : option N :=
  match cs with
  | [] => Some acc
  | c :: rest =>
      match hex_value c with
      | Some d => hex_number rest (16 * acc + d)
      | None => None
      end
  end.

Definition is_hyphen (o : option ascii) : bool :=
  match o with
  | Some c => Ascii.eqb c "-"
  | None => false
  end.

(** The 8-4-4-4-12 text of a UUID, hexadecimal digits of either case. *)
Definition hyphenated_uuid (s : string) : option N :=
  let cs := list_ascii_of_string s in
  if (List.length cs =? 36)%nat
     && is_hyphen (nth_error cs 8) && is_hyphen (nth_error cs 13)
     && is_hyphen (nth_error cs 18) && is_hyphen (nth_error cs 23)
  then hex_number (firstn 8 cs ++ firstn 4 (skipn 9 cs) ++ firstn 4 (skipn 14 cs)
                   ++ firstn 4 (skipn 19 cs) ++ skipn 24 cs) 0
  else None.

Definition hex_digit (d : N) : ascii :=
  ascii_of_N (if (d <? 10)%N then d + 48 else d + 87).

(** The [n] low hexadecimal digits of [u], most significant first. *)
Fixpoint hex_text (n : nat) (u : N) (tail : list ascii) : list ascii :=
  match n with
  | O => tail
  | S n' => hex_text n' (u / 16) (hex_digit (u mod 16) :: tail)
  end.

(** [str(uuid)]: lower-case, hyphenated. *)
Definition uuid_text (u : N) : string :=
  let h := hex_text 32 u [] in
  string_of_list_ascii
    (firstn 8 h ++ "-"%char :: firstn 4 (skipn 8 h) ++ "-"%char :: firstn 4 (skipn 12 h)
     ++ "-"%char :: firstn 4 (skipn 16 h) ++ "-"%char :: skipn 20 h).

(** ** The validation library *)

(** The release decides one rule used here: a field annotated [Optional[X]]
    with no default is given the default [None] by release 1 and is required
    by release 2. *)
Inductive release : Type :=
| V1
| V2.

Definition implicit_none (v : release) : bool :=
  match v with
  | V1 => true
  | V2 => false
  end.

(** Conversions left to the library: each applies only to inputs for which
    the two releases differ or which no declaration of the module exercises.
    [None] is a refusal. *)
Record Library : Type := {
  (** a number or boolean given for a [str] field *)
  str_of_scalar : json -> option string;
  (** a string for an [int] field that is neither signed decimal digits nor
      contains a letter (blanks, digit grouping, a trailing .0, ...) *)
  int_of_text : string -> option Z;
  (** a float for an [int] field *)
  int_of_float : float -> option Z;
  (** an integer for a [float] field *)
  float_of_int : Z -> option float;
  (** a string for a [float] field *)
  float_of_text : string -> option float;
  (** a string of 32 characters or more for a [UUID] field that is not in
      hyphenated form *)
  uuid_of_text : string -> option N;
  (** a value other than an object or null where a mapping is expected *)
  dict_of_json : json -> option (list (string * json));
  (** the JSON written for an infinite or not-a-number float *)
  json_of_nonfinite : float -> json
}.

Section Validation.

Variable L : Library.
Variable v : release.

Definition validate_str (loc : list loc_item) (j : json) : result value :=
  match j with
  | JStr s => Ok (VStr s)
  | JBool _ | JInt _ | JFloat _ =>
      of_option loc (option_map VStr (str_of_scalar L j))
  | _ => Err [(loc, EInvalid)]
  end.

(** A string given for an [int] field.  Signed decimal digits are the integer
    they spell (up to the interpreter's limit of 4300 characters for such a
    conversion); a string that contains a letter is refused. *)
Definition int_of_string (s : string) : option Z :=
  match signed_decimal s with
  | Some z => if (String.length s <=? 4300)%nat then Some z else int_of_text L s
  | None => if has_letter s then None else int_of_text L s
  end.

Definition validate_int (loc : list loc_item) (j : json) : result value :=
  match j with
  | JInt z => Ok (VInt z)
  | JBool b => Ok (VInt (Z.b2z b))
  | JStr s => of_option loc (option_map VInt (int_of_string s))
  | JFloat f => of_option loc (option_map VInt (int_of_float L f))
  | _ => Err [(loc, EInvalid)]
  end.

Definition validate_float (loc : list loc_item) (j : json) : result value :=
  match j with
  | JFloat f => Ok (VFloat f)
  | JInt z => of_option loc (option_map VFloat (float_of_int L z))
  | JBool b => of_option loc (option_map VFloat (float_of_int L (Z.b2z b)))
  | JStr s => of_option loc (option_map VFloat (float_of_text L s))
  | _ => Err [(loc, EInvalid)]
  end.

(** A string given for a [UUID] field.  The hyphenated text is the UUID it
    spells; a UUID has 32 hexadecimal digits in every accepted form, so a
    string of fewer than 32 characters is refused. *)
Definition uuid_of_string (s : string) : option N :=
  match hyphenated_uuid s with
  | Some u => Some u
  | None => if (String.length s <? 32)%nat then None else uuid_of_text L s
  end.

Definition validate_uuid (loc : list loc_item) (j : json) : result value :=
  match j with
  | JStr s => of_option loc (option_map VUuid (uuid_of_string s))
  | _ => Err [(loc, EInvalid)]
  end.

(** The members of a value given where a mapping or a model is expected. *)
Definition as_object (j : json) : option (list (string * json)) :=
  match j with
  | JObj m => Some m
  | JNull => None
  | _ => dict_of_json L j
  end.

(** The items of an array, each checked at its index. *)
Fixpoint validate_items (check : list loc_item -> json -> result value)
    (loc : list loc_item) (i : nat) (items : list json) : result (list value) :=
  match items with
  | [] => Ok []
  | x :: rest =>
      collect (check (loc ++ [LIdx i]) x)
              (validate_items check loc (S i) rest) (fun a => a)
  end.

(** The value of one field: the given entry checked, or the default when the
    key is not given, or an error when there is no default. *)
Definition resolve (check : list loc_item -> json -> result value)
    (optional : bool) (d : default) (loc : list loc_item)
    (entry : option json) : result value :=
  match entry with
  | Some j => check loc j
  | None =>
      match d with
      | Default dv => Ok dv
      | Required =>
          if implicit_none v && optional then Ok VNone
          else Err [(loc, EMissing)]
      end
  end.

Fixpoint validate (t : ftype) (loc : list loc_item) (j : json) {struct t}
    : result value :=
  match t with
  | TStr => validate_str loc j
  | TInt => validate_int loc j
  | TFloat => validate_float loc j
  | TUuid => validate_uuid loc j
  | TDict => result_map VDict (of_option loc (as_object j))
  | TList item =>
      match j with
      | JArr items => result_map VList (validate_items (validate item) loc 0 items)
      | _ => Err [(loc, EInvalid)]
      end
  | TOptional inner =>
      match j with
      | JNull => Ok VNone
      | _ => validate inner loc j
      end
  | TModel fs =>
      match as_object j with
      | Some m =>
          result_map VModel
            ((fix each (fs : list (string * ftype * default))
                : result (list (string * value)) :=
                match fs with
                | [] => Ok []
                | (n, ty, d) :: rest =>
                    collect (resolve (validate ty) (is_optional ty) d
                                     (loc ++ [LKey n]) (assoc n m))
                            (each rest) (pair n)
                end) fs)
      | None => Err [(loc, EInvalid)]
      end
  end.

(** The result of one declared field against the members [m]. *)
Definition field_result (loc : list loc_item) (m : list (string * json))
    (f : field) : result value :=
  resolve (validate (field_type f)) (is_optional (field_type f))
          (field_default f) (loc ++ [LKey (field_name f)])
          (assoc (field_name f) m).

(** The fields of a model checked against the members [m], in declaration
    order. *)
Fixpoint validate_fields (fs : list field) (loc : list loc_item)
    (m : list (string * json)) : result (list (string * value)) :=
  match fs with
  | [] => Ok []
  | (n, ty, d) :: rest =>
      collect (resolve (validate ty) (is_optional ty) d
                       (loc ++ [LKey n]) (assoc n m))
              (validate_fields rest loc m) (pair n)
  end.

(** Construction of a model of class [c] from a parsed document. *)
Definition validate_and_construct (c : Schemas.model_class) (x : json)
    : result (list (string * value)) :=
  match as_object x with
  | Some m => validate_fields (Schemas.fields_of c) [] m
  | None => Err [([], EInvalid)]
  end.

(** ** Dumping to JSON *)

Definition dump_float (f : float) : json :=
  if is_finite f then JFloat f else json_of_nonfinite L f.

(** An untyped value is written as it was read, floats as [dump_float]. *)
Fixpoint dump_any (j : json) : json :=
  match j with
  | JFloat f => dump_float f
  | JArr items => JArr (map dump_any items)
  | JObj m => JObj (map (fun kv => match kv with (k, x) => (k, dump_any x) end) m)
  | _ => j
  end.

Fixpoint dump (x : value) : json :=
  match x with
  | VNone => JNull
  | VStr s => JStr s
  | VInt z => JInt z
  | VFloat f => dump_float f
  | VUuid u => JStr (uuid_text u)
  | VList items => JArr (map dump items)
  | VDict m => JObj (map (fun kv => match kv with (k, x) => (k, dump_any x) end) m)
  | VModel fs => JObj (map (fun kv => match kv with (k, x) => (k, dump x) end) fs)
  end.

(** The JSON object of a constructed model: its fields in declaration
    order. *)
Definition serialize (r : list (string * value)) : json :=
  dump (VModel r).

End Validation.

(** ** A concrete library

    The library that performs none of the open conversions, except that an
    integer of magnitude at most 2^53 given for a float field is the float of
    the same value; a non-finite float is written as null.  The examples
    below are evaluated with it. *)

Definition exact_float_of_int (z : Z) : option float :=
  if (Z.abs z <=? 9007199254740992)%Z
  then Some (if (z <? 0)%Z
             then PrimFloat.opp (PrimFloat.of_uint63 (Uint63.of_Z (Z.abs z)))
             else PrimFloat.of_uint63 (Uint63.of_Z z))
  else None.

Definition plain_library : Library :=
  {| str_of_scalar := fun _ => None;
     int_of_text := fun _ => None;
     int_of_float := fun _ => None;
     float_of_int := exact_float_of_int;
     float_of_text := fun _ => None;
     uuid_of_text := fun _ => None;
     dict_of_json := fun _ => None;
     json_of_nonfinite := fun _ => JNull |}.

(** ** What an input of the declared shape is *)

Definition names (fs : list field) : list string := map field_name fs.

(** A field with no default is required, except that release 1 gives an
    [Optional] annotation the default [None]. *)
Definition required (v : release) (t : ftype) (d : default) : bool :=
  match d with
  | Required => negb (implicit_none v && is_optional t)
  | Default _ => false
  end.

(** Every float of the document is finite, as in a JSON text. *)
Fixpoint finite_floats (j : json) : bool :=
  match j with
  | JFloat f => is_finite f
  | JArr items => forallb finite_floats items
  | JObj m => forallb (fun kv => match kv with (_, x) => finite_floats x end) m
  | _ => true
  end.

Definition canonical_uuid (s : string) : bool :=
  match hyphenated_uuid s with
  | Some u => String.eqb (uuid_text u) s
  | None => false
  end.

(** [matches v t j]: the document [j] has the shape declared by [t].  A
    string field holds a string, an integer field an integer, a float field
    a float, a UUID field the canonical text of a UUID; every declared field
    of a model is given with a value of its shape, or is not given and not
    required. *)
Fixpoint matches (v : release) (t : ftype) (j : json) {struct t} : bool :=
  match t with
  | TStr => match j with JStr _ => true | _ => false end
  | TInt => match j with JInt _ => true | _ => false end
  | TFloat => match j with JFloat f => is_finite f | _ => false end
  | TUuid => match j with JStr s => canonical_uuid s | _ => false end
  | TDict => match j with JObj _ => finite_floats j | _ => false end
  | TList item =>
      match j with
      | JArr items => forallb (matches v item) items
      | _ => false
      end
  | TOptional inner =>
      match j with
      | JNull => true
      | _ => matches v inner j
      end
  | TModel fs =>
      match j with
      | JObj m =>
          (fix each (fs : list (string * ftype * default)) : bool :=
             match fs with
             | [] => true
             | (n, ty, d) :: rest =>
                 match assoc n m with
                 | Some x => matches v ty x
                 | None => negb (required v ty d)
                 end && each rest
             end) fs
      | _ => false
      end
  end.

Definition matches_class (v : release) (c : Schemas.model_class) (x : json) : bool :=
  matches v (TModel (Schemas.fields_of c)) x.

Definition members_of (j : json) : list (string * json) :=
  match j with
  | JObj m => m
  | _ => []
  end.

(** What is written for a field the input does not give: the dump of the
    declared default, and null for the [Optional] field without a default
    that release 1 sets to [None]. *)
Definition default_json (L : Library) (d : default) : json :=
  match d with
  | Default dv => dump L dv
  | Required => JNull
  end.

(** [completes L t x y]: the dumped document [y] is [x] completed with the
    declared defaults, at type [t].  Scalars and untyped mappings are equal,
    arrays agree item by item, and for a model [y] is an object with exactly
    the declared keys in declaration order, in which a key given by [x] has a
    value that completes the given one and a key not given by [x] has the
    declared default. *)
Fixpoint completes (L : Library) (t : ftype) (x y : json) {struct t} : Prop :=
  match t with
  | TList item =>
      match x with
      | JArr xs => exists ys, y = JArr ys /\ Forall2 (completes L item) xs ys
      | _ => y = x
      end
  | TOptional inner =>
      match x with
      | JNull => y = JNull
      | _ => completes L inner x y
      end
  | TModel fs =>
      match x with
      | JObj mx =>
          exists my, y = JObj my /\ keys my = names fs /\
            (fix each (fs : list (string * ftype * default)) : Prop :=
               match fs with
               | [] => True
               | (n, ty, d) :: rest =>
                   match assoc n mx with
                   | Some jx => exists jy, assoc n my = Some jy /\ completes L ty jx jy
                   | None => assoc n my = Some (default_json L d)
                   end /\ each rest
               end) fs
      | _ => y = x
      end
  | _ => y = x
  end.

(** [spelled_out t x]: every model object of [x] gives exactly the declared
    keys, in declaration order. *)
Fixpoint spelled_out (t : ftype) (x : json) {struct t} : bool :=
  match t with
  | TList item =>
      match x with
      | JArr xs => forallb (spelled_out item) xs
      | _ => true
      end
  | TOptional inner =>
      match x with
      | JNull => true
      | _ => spelled_out inner x
      end
  | TModel fs =>
      match x with
      | JObj mx =>
          (if list_eq_dec string_dec (keys mx) (names fs) then true else false)
          && (fix each (fs : list (string * ftype * default)) : bool :=
                match fs with
                | [] => true
                | (n, ty, _) :: rest =>
                    match assoc n mx with
                    | Some jx => spelled_out ty jx
                    | None => false
                    end && each rest
                end) fs
      | _ => true
      end
  | _ => true
  end.

(** What a given field must look like in an input of the declared shape. *)
Definition field_matches (v : release) (m : list (string * json)) (f : field)
    : bool :=
  match assoc (field_name f) m with
  | Some x => matches v (field_type f) x
  | None => negb (required v (field_type f) (field_default f))
  end.

Definition field_completed (L : Library) (mx my : list (string * json))
    (f : field) : Prop :=
  match assoc (field_name f) mx with
  | Some jx => exists jy, assoc (field_name f) my = Some jy
                          /\ completes L (field_type f) jx jy
  | None => assoc (field_name f) my = Some (default_json L (field_default f))
  end.

Definition field_spelled_out (mx : list (string * json)) (f : field) : bool :=
  match assoc (field_name f) mx with
  | Some jx => spelled_out (field_type f) jx
  | None => false
  end.

(** [refused t j]: a value that a field of type [t] refuses whatever the
    library converts: null where the field is not [Optional], an array or an
    object for a string or a number, a string that contains a letter and is
    not signed decimal digits for an integer, anything but a string and a
    string of fewer than 32 characters for a UUID, anything but an array for
    a list; for an [Optional] field, what its inner type refuses, null
    excepted. *)
Fixpoint refused (t : ftype) (j : json) {struct t} : bool :=
  match t with
  | TStr =>
      match j with
      | JNull | JArr _ | JObj _ => true
      | _ => false
      end
  | TInt =>
      match j with
      | JNull | JArr _ | JObj _ => true
      | JStr s =>
          match signed_decimal s with
          | Some _ => false
          | None => has_letter s
          end
      | _ => false
      end
  | TFloat =>
      match j with
      | JNull | JArr _ | JObj _ => true
      | _ => false
      end
  | TUuid =>
      match j with
      | JStr s =>
          match hyphenated_uuid s with
          | Some _ => false
          | None => (String.length s <? 32)%nat
          end
      | _ => true
      end
  | TDict =>
      match j with
      | JNull => true
      | _ => false
      end
  | TList _ =>
      match j with
      | JArr _ => false
      | _ => true
      end
  | TOptional inner =>
      match j with
      | JNull => false
      | _ => refused inner j
      end
  | TModel _ =>
      match j with
      | JNull => true
      | _ => false
      end
  end.

(** A type with no model inside: a scalar, a mapping, or lists and options
    of such. *)
Fixpoint flat (t : ftype) : bool :=
  match t with
  | TList item => flat item
  | TOptional inner => flat inner
  | TModel _ => false
  | _ => true
  end.

(** Field names are pairwise distinct, at every level. *)
Fixpoint distinct (l : list string) : bool :=
  match l with
  | [] => true
  | k :: rest => negb (existsb (String.eqb k) rest) && distinct rest
  end.

Fixpoint well_formed (t : ftype) : bool :=
  match t with
  | TList item => well_formed item
  | TOptional inner => well_formed inner
  | TModel fs =>
      distinct (map (fun f => fst (fst f)) fs)
      && (fix each (fs : list (string * ftype * default)) : bool :=
            match fs with
            | [] => true
            | (_, ty, _) :: rest => well_formed ty && each rest
            end) fs
  | _ => true
  end.

(** ** Further notions used by the properties *)

Definition errors_of {A : Type} (r : result A) : list error :=
  match r with
  | Ok _ => []
  | Err es => es
  end.

(** Errors all of whose locations lie at or below [loc]. *)
Definition located (loc : list loc_item) (es : list error) : Prop :=
  Forall (fun e => exists rest, fst e = loc ++ rest) es.

(** [has_type t a]: the validated value [a] is of the declared type [t]. *)
Fixpoint has_type (t : ftype) (a : value) {struct t} : bool :=
  match t with
  | TStr => match a with VStr _ => true | _ => false end
  | TInt => match a with VInt _ => true | _ => false end
  | TFloat => match a with VFloat _ => true | _ => false end
  | TUuid => match a with VUuid _ => true | _ => false end
  | TDict => match a with VDict _ => true | _ => false end
  | TList item =>
      match a with
      | VList l => forallb (has_type item) l
      | _ => false
      end
  | TOptional inner =>
      match a with
      | VNone => true
      | _ => has_type inner a
      end
  | TModel fs =>
      match a with
      | VModel r =>
          (fix each (fs : list (string * ftype * default))
               (r : list (string * value)) : bool :=
             match fs, r with
             | [], [] => true
             | (n, ty, _) :: fs', (k, x) :: r' =>
                 String.eqb k n && has_type ty x && each fs' r'
             | _, _ => false
             end) fs r
      | _ => false
      end
  end.

Definition default_typed (t : ftype) (d : default) : bool :=
  match d with
  | Required => true
  | Default dv => has_type t dv
  end.

(** Every declared default is of the declared type of its field. *)
Fixpoint defaults_typed (t : ftype) : bool :=
  match t with
  | TList item => defaults_typed item
  | TOptional inner => defaults_typed inner
  | TModel fs =>
      (fix each (fs : list (string * ftype * default)) : bool :=
         match fs with
         | [] => true
         | (_, ty, d) :: rest =>
             default_typed ty d && defaults_typed ty && each rest
         end) fs
  | _ => true
  end.

(** A value every float of which is finite and every UUID of which is a
    128-bit number. *)
Fixpoint plain_value (a : value) : bool :=
  match a with
  | VFloat f => is_finite f
  | VUuid u => (u <? 2 ^ 128)%N
  | VList l => forallb plain_value l
  | VDict m => forallb (fun kv => match kv with (_, x) => finite_floats x end) m
  | VModel r => forallb (fun kv => match kv with (_, x) => plain_value x end) r
  | _ => true
  end.

(** No field of the type, at any depth, is an [Optional] annotation without
    a default: the two releases then read the declaration alike. *)
Fixpoint release_free (t : ftype) : bool :=
  match t with
  | TList item => release_free item
  | TOptional inner => release_free inner
  | TModel fs =>
      (fix each (fs : list (string * ftype * default)) : bool :=
         match fs with
         | [] => true
         | (_, ty, d) :: rest =>
             negb (is_optional ty && match d with Required => true | _ => false end)
             && release_free ty && each rest
         end) fs
  | _ => true
  end.

(** ** Example inputs *)

Import Schemas.

Definition tour_without_image : json :=
  JObj [("content_id", JInt 1); ("title", JStr "t"); ("region", JStr "r");
        ("overview", JStr "o")].

Definition slots_response_input : json :=
  JObj [("slots", JObj []); ("jobs_preview", JArr []);
        ("tours_preview", JArr [tour_without_image])].

Definition scenario_D : json :=
  JObj [("budget", JStr "not-a-number"); ("query", JStr "x")].

Definition scenario_B : list (string * json) :=
  [("query", JStr "trip"); ("budget", JInt 100000)].

Definition tour_members : list (string * json) :=
  [("content_id", JInt 1); ("title", JStr "t"); ("region", JStr "r");
   ("overview", JStr "o")].

Definition scenario_C : json :=
  JObj [("day", JInt 1); ("date", JStr "2024-09-01");
        ("plan_items", JArr [JStr "clam digging"]);
        ("total_distance_km", JNull); ("total_cost_krw", JNull)].

Definition scenario_C_keys_omitted : json :=
  JObj [("day", JInt 1); ("date", JStr "2024-09-01");
        ("plan_items", JArr [JStr "clam digging"])].

Definition scenario_C_record : list (string * value) :=
  [("day", VInt 1); ("date", VStr "2024-09-01");
   ("plan_items", VList [VStr "clam digging"]);
   ("total_distance_km", VNone); ("total_cost_krw", VNone)].

(** * Properties *)

(** Induction on field types that reaches the fields of a nested model. *)
Definition ftype_nested_ind (P : ftype -> Prop)
    (HStr : P TStr) (HInt : P TInt) (HFloat : P TFloat) (HUuid : P TUuid)
    (HDict : P TDict)
    (HList : forall t, P t -> P (TList t))
    (HOpt : forall t, P t -> P (TOptional t))
    (HModel : forall fs, Forall (fun f => P (field_type f)) fs -> P (TModel fs))
    : forall t, P t :=
  fix go (t : ftype) : P t :=
    match t with
    | TStr => HStr
    | TInt => HInt
    | TFloat => HFloat
    | TUuid => HUuid
    | TDict => HDict
    | TList item => HList item (go item)
    | TOptional inner => HOpt inner (go inner)
    | TModel fs =>
        HModel fs
          ((fix all (fs : list (string * ftype * default))
              : Forall (fun f => P (field_type f)) fs :=
              match fs with
              | [] => Forall_nil _
              | f :: rest => Forall_cons f (go (field_type f)) (all rest)
              end) fs)
    end.

Section FieldLemmas.

Variable L : Library.
Variable v : release.

Lemma validate_fields_cons (f : field) (fs : list field) loc m :
  validate_fields L v (f :: fs) loc m
  = collect (field_result L v loc m f) (validate_fields L v fs loc m)
            (pair (field_name f)).
Proof. destruct f as [[n ty] d]. reflexivity. Qed.

Lemma validate_model_eq (fs : list field) loc j :
  validate L v (TModel fs) loc j
  = match as_object L j with
    | Some m => result_map VModel (validate_fields L v fs loc m)
    | None => Err [(loc, EInvalid)]
    end.
Proof.
  simpl. destruct (as_object L j) as [m|]; [|reflexivity].
  f_equal. induction fs as [|[[n ty] d] rest IH]; [reflexivity|].
  simpl. now rewrite IH.
Qed.

(** Success of a model is success of every field, and the record lists the
    field values under the field names in declaration order. *)
Lemma validate_fields_ok fs loc m r :
  validate_fields L v fs loc m = Ok r <->
  Forall2 (fun f kv => fst kv = field_name f /\ field_result L v loc m f = Ok (snd kv))
          fs r.
Proof.
  revert r. induction fs as [|f rest IH]; intros r.
  - simpl. split; intros H.
    + inversion H. constructor.
    + inversion H. reflexivity.
  - rewrite validate_fields_cons. split; intros H.
    + destruct (field_result L v loc m f) as [a|es] eqn:Ef;
        destruct (validate_fields L v rest loc m) as [l|es'] eqn:Er;
        simpl in H; try discriminate.
      inversion H; subst. constructor; [split; reflexivity || assumption|].
      now apply IH.
    + inversion H as [|f' kv fs' r' [Hn Hv] Hrest]; subst.
      apply IH in Hrest. rewrite Hv, Hrest. simpl.
      destruct kv as [k a]. simpl in *. now subst.
Qed.

Lemma validate_fields_keys fs loc m r :
  validate_fields L v fs loc m = Ok r -> keys r = names fs.
Proof.
  intros H. apply validate_fields_ok in H.
  induction H as [|f kv fs' r' [Hn _] _ IH]; [reflexivity|].
  unfold keys, names in *. simpl. now rewrite Hn, IH.
Qed.

(** Every error of a field is an error of the model. *)
Lemma validate_fields_err fs loc m f es0 :
  In f fs -> field_result L v loc m f = Err es0 ->
  exists es, validate_fields L v fs loc m = Err es /\ incl es0 es.
Proof.
  induction fs as [|g rest IH]; intros Hin Hf; [contradiction|].
  rewrite validate_fields_cons. destruct Hin as [->|Hin].
  - rewrite Hf. destruct (validate_fields L v rest loc m) as [l|es']; simpl.
    + exists es0. split; [reflexivity|apply incl_refl].
    + exists (es0 ++ es'). split; [reflexivity|apply incl_appl, incl_refl].
  - destruct (IH Hin Hf) as [es [Hes Hincl]]. rewrite Hes.
    destruct (field_result L v loc m g) as [a|eg]; simpl.
    + exists es. split; [reflexivity|assumption].
    + exists (eg ++ es). split; [reflexivity|now apply incl_appr].
Qed.

(** The value a successful construction stores for a declared field. *)
Lemma validate_fields_assoc fs loc m r f :
  validate_fields L v fs loc m = Ok r ->
  distinct (names fs) = true -> In f fs ->
  exists a, assoc (field_name f) r = Some a /\ field_result L v loc m f = Ok a.
Proof.
  intros H. apply validate_fields_ok in H.
  induction H as [|g kv fs' r' [Hn Hv] Hrest IH]; intros Hd Hin; [contradiction|].
  destruct kv as [k a]. simpl in Hn, Hv. subst k.
  simpl in Hd. apply andb_true_iff in Hd. destruct Hd as [Hfresh Hd].
  simpl. destruct Hin as [->|Hin].
  - rewrite String.eqb_refl. now exists a.
  - destruct (String.eqb (field_name f) (field_name g)) eqn:E.
    + apply String.eqb_eq in E. exfalso.
      apply negb_true_iff in Hfresh.
      assert (existsb (String.eqb (field_name g)) (names fs') = true) as Hx.
      { apply existsb_exists. exists (field_name f). split.
        - unfold names. now apply in_map.
        - rewrite E. apply String.eqb_refl. }
      congruence.
    + now apply IH.
Qed.

End FieldLemmas.

(** Induction on documents that reaches array items and object members. *)
Definition json_nested_ind (P : json -> Prop)
    (HNull : P JNull) (HBool : forall b, P (JBool b)) (HInt : forall z, P (JInt z))
    (HFloat : forall f, P (JFloat f)) (HStr : forall s, P (JStr s))
    (HArr : forall items, Forall P items -> P (JArr items))
    (HObj : forall m, Forall (fun kv => P (snd kv)) m -> P (JObj m))
    : forall j, P j :=
  fix go (j : json) : P j :=
    match j with
    | JNull => HNull
    | JBool b => HBool b
    | JInt z => HInt z
    | JFloat f => HFloat f
    | JStr s => HStr s
    | JArr items =>
        HArr items
          ((fix all (l : list json) : Forall P l :=
              match l with
              | [] => Forall_nil _
              | x :: rest => Forall_cons x (go x) (all rest)
              end) items)
    | JObj m =>
        HObj m
          ((fix all (l : list (string * json)) : Forall (fun kv => P (snd kv)) l :=
              match l with
              | [] => Forall_nil _
              | kv :: rest => Forall_cons kv (go (snd kv)) (all rest)
              end) m)
    end.

Lemma assoc_map {A B : Type} (g : A -> B) (k : string) (l : list (string * A)) :
  assoc k (map (fun kv => match kv with (k', a) => (k', g a) end) l)
  = option_map g (assoc k l).
Proof.
  induction l as [|[k' a] rest IH]; [reflexivity|].
  simpl. destruct (String.eqb k k'); [reflexivity|exact IH].
Qed.

(** Two association lists with the same distinct keys and the same bindings
    are the same list. *)
Lemma assoc_ext {A : Type} (a : list (string * A)) :
  forall b,
    keys a = keys b -> distinct (keys a) = true ->
    (forall k, In k (keys a) -> assoc k a = assoc k b) -> a = b.
Proof.
  induction a as [|[k x] a' IH]; intros [|[k' x'] b'] Hk Hd H; try discriminate Hk.
  - reflexivity.
  - simpl in Hk. inversion Hk as [[Hkk Hrest]]. subst k'.
    simpl in Hd. apply andb_true_iff in Hd. destruct Hd as [Hfresh Hd].
    pose proof (H k (or_introl eq_refl)) as Hx. simpl in Hx.
    rewrite String.eqb_refl in Hx. inversion Hx; subst x'.
    f_equal. apply IH; [exact Hrest|exact Hd|].
    intros k2 Hk2. specialize (H k2 (or_intror Hk2)). simpl in H.
    destruct (String.eqb k2 k) eqn:E; [|exact H].
    apply String.eqb_eq in E. subst k2. exfalso.
    apply negb_true_iff in Hfresh.
    assert (existsb (String.eqb k) (keys a') = true) as Hex.
    { apply existsb_exists. exists k. split; [exact Hk2|apply String.eqb_refl]. }
    congruence.
Qed.

Section RoundTrip.

Variable L : Library.
Variable v : release.

Lemma dump_any_finite (j : json) :
  finite_floats j = true -> dump_any L j = j.
Proof.
  induction j as [| | |f| |items IH|m IH] using json_nested_ind;
    simpl; intros H; try reflexivity.
  - unfold dump_float. now rewrite H.
  - f_equal. induction IH as [|x rest Hx _ IHrest]; [reflexivity|].
    simpl in H. apply andb_true_iff in H. destruct H as [H1 H2].
    simpl. now rewrite Hx, IHrest.
  - f_equal. induction IH as [|[k x] rest Hx _ IHrest]; [reflexivity|].
    simpl in H. apply andb_true_iff in H. destruct H as [H1 H2].
    simpl in *. now rewrite Hx, IHrest.
Qed.

Lemma matches_model fs m :
  matches v (TModel fs) (JObj m) = forallb (field_matches v m) fs.
Proof.
  simpl. induction fs as [|[[n ty] d] rest IH]; [reflexivity|].
  simpl. now rewrite IH.
Qed.

Lemma completes_model fs mx y :
  completes L (TModel fs) (JObj mx) y <->
  exists my, y = JObj my /\ keys my = names fs
             /\ Forall (field_completed L mx my) fs.
Proof.
  simpl. split; intros [my [Hy [Hk H]]]; exists my;
    (split; [exact Hy|]); (split; [exact Hk|]); clear Hy Hk.
  - induction fs as [|[[n ty] d] rest IH]; [constructor|].
    destruct H as [H1 H2]. constructor; [exact H1|now apply IH].
  - induction fs as [|[[n ty] d] rest IH]; [exact I|].
    inversion H; subst. split; [assumption|now apply IH].
Qed.

Lemma spelled_out_model fs mx :
  spelled_out (TModel fs) (JObj mx)
  = (if list_eq_dec string_dec (keys mx) (names fs) then true else false)
    && forallb (field_spelled_out mx) fs.
Proof.
  simpl. f_equal. induction fs as [|[[n ty] d] rest IH]; [reflexivity|].
  simpl. now rewrite IH.
Qed.

Lemma well_formed_model fs :
  well_formed (TModel fs)
  = distinct (names fs) && forallb (fun f => well_formed (field_type f)) fs.
Proof.
  simpl. f_equal. induction fs as [|[[n ty] d] rest IH]; [reflexivity|].
  simpl. now rewrite IH.
Qed.

Lemma validate_items_ok (check : list loc_item -> json -> result value)
    (R : json -> json -> Prop) items :
  Forall (fun x => forall loc, exists a, check loc x = Ok a /\ R x (dump L a)) items ->
  forall loc i, exists l,
    validate_items check loc i items = Ok l /\ Forall2 R items (map (dump L) l).
Proof.
  induction 1 as [|x rest Hx _ IH]; intros loc i.
  - exists []. split; [reflexivity|constructor].
  - destruct (Hx (loc ++ [LIdx i])) as [a [Ha HR]].
    destruct (IH loc (S i)) as [l [Hl HF]].
    exists (a :: l). simpl. rewrite Ha, Hl. split; [reflexivity|].
    now constructor.
Qed.

Lemma validate_fields_total fs loc m :
  Forall (fun f => exists a, field_result L v loc m f = Ok a) fs ->
  exists r, validate_fields L v fs loc m = Ok r.
Proof.
  induction 1 as [|f rest [a Ha] _ [r Hr]].
  - now exists [].
  - exists ((field_name f, a) :: r).
    now rewrite validate_fields_cons, Ha, Hr.
Qed.

(** An input of the declared shape is accepted, and its dump is the input
    completed with the declared defaults. *)
Lemma validate_matches (t : ftype) :
  well_formed t = true ->
  forall loc j, matches v t j = true ->
  exists a, validate L v t loc j = Ok a /\ completes L t j (dump L a).
Proof.
  induction t as [| | | | |t IH|t IH|fs IH] using ftype_nested_ind;
    intros Hwf loc j Hm.
  - destruct j; try discriminate. now exists (VStr s).
  - destruct j; try discriminate. now exists (VInt z).
  - destruct j; try discriminate. exists (VFloat f). split; [reflexivity|].
    simpl in *. unfold dump_float. now rewrite Hm.
  - destruct j; try discriminate. simpl in Hm. unfold canonical_uuid in Hm.
    destruct (hyphenated_uuid s) as [u|] eqn:Eu; [|discriminate].
    apply String.eqb_eq in Hm. exists (VUuid u). simpl.
    unfold uuid_of_string. rewrite Eu. simpl. now rewrite Hm.
  - destruct j; try discriminate. exists (VDict members). split; [reflexivity|].
    pose proof (dump_any_finite _ Hm) as Hd. simpl in Hd. exact Hd.
  - destruct j; try discriminate. simpl in Hm.
    assert (Forall (fun x => forall loc, exists a,
              validate L v t loc x = Ok a /\ completes L t x (dump L a)) items) as HF.
    { apply Forall_forall. intros x Hx loc'. apply IH; [exact Hwf|].
      rewrite forallb_forall in Hm. now apply Hm. }
    destruct (validate_items_ok (validate L v t) (completes L t) items HF loc 0%nat)
      as [l [Hl HR]].
    exists (VList l). simpl. rewrite Hl. split; [reflexivity|].
    now exists (map (dump L) l).
  - destruct j; simpl in Hm |- *; try (now apply IH).
    now exists VNone.
  - destruct j; try discriminate.
    rewrite matches_model in Hm. rewrite well_formed_model in Hwf.
    apply andb_true_iff in Hwf. destruct Hwf as [Hd Hwf].
    rewrite forallb_forall in Hm, Hwf. rewrite Forall_forall in IH.
    assert (forall f, In f fs -> exists a, field_result L v loc members f = Ok a /\
              match assoc (field_name f) members with
              | Some jx => completes L (field_type f) jx (dump L a)
              | None => dump L a = default_json L (field_default f)
              end) as Hf.
    { intros f Hin. specialize (Hm f Hin). unfold field_matches in Hm.
      unfold field_result. destruct (assoc (field_name f) members) as [x|].
      - simpl. now apply IH; [|apply Hwf|].
      - unfold resolve, required in *. destruct (field_default f) as [|dv].
        + apply negb_true_iff, negb_false_iff in Hm. rewrite Hm. now exists VNone.
        + now exists dv. }
    assert (exists r, validate_fields L v fs loc members = Ok r) as [r Hr].
    { apply validate_fields_total, Forall_forall.
      intros f Hin. destruct (Hf f Hin) as [a [Ha _]]. now exists a. }
    exists (VModel r). rewrite validate_model_eq. simpl. rewrite Hr.
    split; [reflexivity|].
    change (JObj (map (fun kv => match kv with (k, x) => (k, dump L x) end) r))
      with (dump L (VModel r)).
    apply completes_model. eexists. split; [reflexivity|]. split.
    { rewrite <- (validate_fields_keys L v fs loc members r Hr).
      unfold keys. rewrite map_map. apply map_ext. now intros [k a]. }
    apply Forall_forall. intros f Hin. unfold field_completed.
    destruct (Hf f Hin) as [a [Ha HR]].
    destruct (validate_fields_assoc L v fs loc members r f Hr Hd Hin)
      as [a' [Ha' Hres]].
    rewrite Ha in Hres. inversion Hres; subst a'.
    assert (assoc (field_name f)
              (map (fun kv => match kv with (k, x) => (k, dump L x) end) r)
            = Some (dump L a)) as Hout by now rewrite assoc_map, Ha'.
    destruct (assoc (field_name f) members) as [jx|].
    + exists (dump L a). split; [exact Hout|exact HR].
    + rewrite <- HR. exact Hout.
Qed.

(** At a type with no nested model, completion is equality. *)
Lemma completes_flat (t : ftype) :
  flat t = true -> forall x y, completes L t x y -> y = x.
Proof.
  induction t as [| | | | |t IH|t IH|fs _] using ftype_nested_ind;
    intros Hflat x y H; try exact H; try discriminate.
  - simpl in H. destruct x; try exact H.
    destruct H as [ys [-> HF]]. f_equal.
    induction HF as [|a b l l' Hab _ IHl]; [reflexivity|].
    now rewrite (IH Hflat _ _ Hab), IHl.
  - simpl in H. destruct x; try exact H; now apply IH.
Qed.

(** An input that gives every declared key is its own completion. *)
Lemma completes_spelled_out (t : ftype) :
  well_formed t = true ->
  forall x y, spelled_out t x = true -> completes L t x y -> y = x.
Proof.
  induction t as [| | | | |t IH|t IH|fs IH] using ftype_nested_ind;
    intros Hwf x y Hs H; try exact H.
  - simpl in H, Hs. destruct x; try exact H.
    destruct H as [ys [-> HF]]. f_equal.
    induction HF as [|a b l l' Hab _ IHl]; [reflexivity|].
    simpl in Hs. apply andb_true_iff in Hs. destruct Hs as [Ha Hl].
    now rewrite (IH Hwf _ _ Ha Hab), (IHl Hl).
  - simpl in H, Hs. destruct x; try exact H; now apply IH.
  - destruct x; try exact H.
    rewrite spelled_out_model in Hs. apply andb_true_iff in Hs.
    destruct Hs as [Hkx Hs].
    destruct (list_eq_dec string_dec (keys members) (names fs)) as [Hkeys|];
      [clear Hkx|discriminate].
    apply completes_model in H. destruct H as [my [-> [Hky HF]]].
    rewrite well_formed_model in Hwf. apply andb_true_iff in Hwf.
    destruct Hwf as [Hd Hwf].
    rewrite forallb_forall in Hs, Hwf. rewrite Forall_forall in HF, IH.
    f_equal. apply assoc_ext.
    + now rewrite Hky, Hkeys.
    + now rewrite Hky.
    + intros k Hk. rewrite Hky in Hk. unfold names in Hk.
      apply in_map_iff in Hk. destruct Hk as [f [<- Hf]].
      specialize (Hs f Hf). specialize (HF f Hf).
      unfold field_spelled_out in Hs. unfold field_completed in HF.
      destruct (assoc (field_name f) members) as [jx|]; [|discriminate].
      destruct HF as [jy [Hjy Hc]]. rewrite Hjy. f_equal.
      exact (IH f Hf (Hwf f Hf) jx jy Hs Hc).
Qed.

End RoundTrip.

(** * The claims about the eight models *)

Lemma fields_well_formed (c : model_class) :
  well_formed (TModel (fields_of c)) = true.
Proof. destruct c; reflexivity. Qed.

Lemma matches_class_object v c x :
  matches_class v c x = true -> exists m, x = JObj m.
Proof.
  unfold matches_class. destruct x; simpl; try discriminate. now eexists.
Qed.

(** C1 (as amended).  For each of the eight models and every input of the
    declared shape, construction succeeds and the serialized record is the
    input completed with the declared defaults: it has exactly the declared
    keys in declaration order; every key the input gives, at the top level
    or inside a nested card, comes back with the given value (exactly the
    given value at a field whose type holds no nested model); every key the
    input omits, at the top level or inside a nested card, comes back with
    its declared default.  The serialized record is the input itself when the
    input gives every declared key at every level. *)
Theorem C1_round_trip_on_declared_shape :
  forall (L : Library) (v : release) (c : model_class) (x : json),
    matches_class v c x = true ->
    exists r,
      validate_and_construct L v c x = Ok r
      /\ completes L (TModel (fields_of c)) x (serialize L r)
      /\ (forall n ty d j,
            In (n, ty, d) (fields_of c) -> flat ty = true ->
            assoc n (members_of x) = Some j ->
            assoc n (members_of (serialize L r)) = Some j)
      /\ (spelled_out (TModel (fields_of c)) x = true -> serialize L r = x).
Proof.
  intros L v c x Hm.
  destruct (matches_class_object v c x Hm) as [m ->].
  destruct (validate_matches L v (TModel (fields_of c)) (fields_well_formed c)
              [] (JObj m) Hm) as [a [Ha Hrep]].
  rewrite validate_model_eq in Ha. simpl in Ha.
  destruct (validate_fields L v (fields_of c) [] m) as [r|es] eqn:Hr;
    [|discriminate].
  simpl in Ha. inversion Ha; subst a. clear Ha.
  exists r. unfold validate_and_construct, as_object. rewrite Hr.
  split; [reflexivity|]. split; [exact Hrep|]. split.
  - intros n ty d j Hin Hflat Hj.
    apply completes_model in Hrep. destruct Hrep as [my [Hmy [_ HF]]].
    unfold serialize. rewrite Hmy. simpl in Hj |- *.
    rewrite Forall_forall in HF. specialize (HF _ Hin).
    unfold field_completed, field_name, field_type in HF. simpl in HF.
    rewrite Hj in HF.
    destruct HF as [jy [Hjy Hrep]]. rewrite Hjy.
    now rewrite (completes_flat L ty Hflat j jy Hrep).
  - intros Hs.
    exact (completes_spelled_out L (TModel (fields_of c)) (fields_well_formed c)
             (JObj m) (serialize L r) Hs Hrep).
Qed.

Lemma C1_round_trip_witness :
  exists r,
    validate_and_construct plain_library V2 SlotsResponse slots_response_input = Ok r
    /\ completes plain_library (TModel (fields_of SlotsResponse)) slots_response_input
         (serialize plain_library r)
    /\ (forall n ty d j,
          In (n, ty, d) (fields_of SlotsResponse) -> flat ty = true ->
          assoc n (members_of slots_response_input) = Some j ->
          assoc n (members_of (serialize plain_library r)) = Some j)
    /\ (spelled_out (TModel (fields_of SlotsResponse)) slots_response_input = true ->
        serialize plain_library r = slots_response_input).
Proof.
  apply (C1_round_trip_on_declared_shape plain_library V2 SlotsResponse
           slots_response_input).
  reflexivity.
Defined.

(** C1, as stated, fails: serialization is not the identity on an input that
    omits a field with a default.  A TourPreview given without [image_url]
    is of the declared shape and is accepted, and the serialized record has
    the key [image_url], with null, which the input does not have; inside a
    SlotsResponse the same card makes the serialized [tours_preview] differ
    from the given one. *)
Lemma C1_counterexample :
  matches_class V2 TourPreview (JObj tour_members) = true
  /\ result_map (serialize plain_library)
       (validate_and_construct plain_library V2 TourPreview (JObj tour_members))
     = Ok (JObj (tour_members ++ [("image_url", JNull)]))
  /\ assoc "image_url" (tour_members ++ [("image_url", JNull)]) = Some JNull
  /\ assoc "image_url" tour_members = None
  /\ JObj (tour_members ++ [("image_url", JNull)]) <> JObj tour_members
  /\ matches_class V2 SlotsResponse slots_response_input = true
  /\ result_map (fun r => assoc "tours_preview" (members_of (serialize plain_library r)))
       (validate_and_construct plain_library V2 SlotsResponse slots_response_input)
     = Ok (Some (JArr [JObj (tour_members ++ [("image_url", JNull)])]))
  /\ Some (JArr [JObj (tour_members ++ [("image_url", JNull)])])
     <> assoc "tours_preview" (members_of slots_response_input).
Proof.
  repeat (split; [reflexivity|]). split.
  - intros H. inversion H.
  - repeat (split; [reflexivity|]).
    simpl. unfold tour_without_image. intros H. inversion H.
Qed.

(** A required field that the input does not give is reported missing. *)
Lemma field_result_missing L v loc m n ty d :
  required v ty d = true -> assoc n m = None ->
  field_result L v loc m (n, ty, d) = Err [(loc ++ [LKey n], EMissing)].
Proof.
  intros Hreq Hm. unfold field_result, field_name, field_type, field_default.
  simpl. rewrite Hm. unfold required in Hreq. destruct d; [|discriminate].
  simpl. apply negb_true_iff in Hreq. now rewrite Hreq.
Qed.

(** C2.  For each of the eight models, an input that does not give a
    required field is refused, and the errors name that field as missing.
    The input is a JSON object or, where the library reads one, whatever it
    reads as a mapping. *)
Theorem C2_missing_required_field :
  forall (L : Library) (v : release) (c : model_class) (x : json)
         (m : list (string * json)) (n : string) (ty : ftype) (d : default),
    as_object L x = Some m ->
    In (n, ty, d) (fields_of c) ->
    required v ty d = true ->
    assoc n m = None ->
    exists es,
      validate_and_construct L v c x = Err es
      /\ In ([LKey n], EMissing) es.
Proof.
  intros L v c x m n ty d Hx Hin Hreq Hm.
  destruct (validate_fields_err L v (fields_of c) [] m (n, ty, d)
              [([LKey n], EMissing)] Hin) as [es [Hes Hincl]].
  - now apply (field_result_missing L v []).
  - exists es. unfold validate_and_construct. rewrite Hx.
    split; [exact Hes|]. apply Hincl. now left.
Qed.

Lemma C2_missing_required_field_witness :
  exists es,
    validate_and_construct plain_library V2 JobPreview
      (JObj [("farm_name", JStr "f"); ("region", JStr "r"); ("tags", JArr [])])
    = Err es
    /\ In ([LKey "job_id"], EMissing) es.
Proof.
  apply (C2_missing_required_field plain_library V2 JobPreview
           (JObj [("farm_name", JStr "f"); ("region", JStr "r"); ("tags", JArr [])])
           [("farm_name", JStr "f"); ("region", JStr "r"); ("tags", JArr [])]
           "job_id" TInt Required).
  - reflexivity.
  - simpl. left. reflexivity.
  - reflexivity.
  - reflexivity.
Defined.

(** C3, as stated, fails: the string "100000" given for [budget] is not a
    value of the declared type [int], and construction succeeds. *)
Lemma C3_counterexample :
  matches V2 TInt (JStr "100000") = false
  /\ validate_and_construct plain_library V2 RecommendationRequest
       (JObj [("budget", JStr "100000"); ("query", JStr "x")])
     = Ok [("query", VStr "x"); ("user_id", VNone); ("budget", VInt 100000)].
Proof. split; reflexivity. Qed.

(** C4 (as amended).  [SlotQuery.query] is a required string with no length
    constraint: every string, the empty one included, is accepted and stored
    unchanged, and an input without the key is refused with [query]
    missing. *)
Theorem C4_query_is_any_string :
  forall (L : Library) (v : release) (m : list (string * json)),
    (forall s, assoc "query" m = Some (JStr s) ->
       validate_and_construct L v SlotQuery (JObj m) = Ok [("query", VStr s)])
    /\ (assoc "query" m = None ->
       validate_and_construct L v SlotQuery (JObj m)
       = Err [([LKey "query"], EMissing)]).
Proof.
  intros L v m. unfold validate_and_construct. simpl. split.
  - intros s Hm. now rewrite Hm.
  - intros Hm. rewrite Hm. simpl. now destruct v.
Qed.

Lemma C4_query_is_any_string_witness :
  validate_and_construct plain_library V2 SlotQuery
    (JObj [("query", JStr "9월 첫째 주 고창에서 조개잡이")])
  = Ok [("query", VStr "9월 첫째 주 고창에서 조개잡이")].
Proof.
  apply (proj1 (C4_query_is_any_string plain_library V2
                  [("query", JStr "9월 첫째 주 고창에서 조개잡이")])).
  reflexivity.
Defined.

(** C4, as stated, fails: the empty string is accepted for [query]. *)
Lemma C4_counterexample :
  validate_and_construct plain_library V2 SlotQuery (JObj [("query", JStr "")])
  = Ok [("query", VStr "")].
Proof. reflexivity. Qed.

(** C5.  A RecommendRequest constructed from an object that does not give
    [selected_jobs] (respectively [selected_tours]) has that field present
    and equal to the empty list, and serializes it as the empty array. *)
Theorem C5_selected_lists_default_empty :
  forall (L : Library) (v : release) (m : list (string * json))
         (r : list (string * value)),
    validate_and_construct L v RecommendRequest (JObj m) = Ok r ->
    (assoc "selected_jobs" m = None ->
       assoc "selected_jobs" r = Some (VList [])
       /\ assoc "selected_jobs" (members_of (serialize L r)) = Some (JArr []))
    /\ (assoc "selected_tours" m = None ->
       assoc "selected_tours" r = Some (VList [])
       /\ assoc "selected_tours" (members_of (serialize L r)) = Some (JArr [])).
Proof.
  intros L v m r Hr. unfold validate_and_construct in Hr. simpl as_object in Hr.
  split; intros Hm.
  - destruct (validate_fields_assoc L v _ _ _ _
                ("selected_jobs", TList TInt, Default (VList [])) Hr eq_refl)
      as [a [Ha Hres]]; [simpl; tauto|].
    unfold field_result, field_name, field_type, field_default in *.
    simpl in Ha, Hres. rewrite Hm in Hres. inversion Hres; subst a.
    split; [exact Ha|]. simpl. now rewrite assoc_map, Ha.
  - destruct (validate_fields_assoc L v _ _ _ _
                ("selected_tours", TList TInt, Default (VList [])) Hr eq_refl)
      as [a [Ha Hres]]; [simpl; tauto|].
    unfold field_result, field_name, field_type, field_default in *.
    simpl in Ha, Hres. rewrite Hm in Hres. inversion Hres; subst a.
    split; [exact Ha|]. simpl. now rewrite assoc_map, Ha.
Qed.

Lemma C5_selected_lists_witness :
  assoc "selected_jobs"
    [("query", VStr "trip"); ("user_id", VNone); ("budget", VInt 100000);
     ("selected_jobs", VList []); ("selected_tours", VList [])]
  = Some (VList [])
  /\ assoc "selected_jobs"
       (members_of (serialize plain_library
          [("query", VStr "trip"); ("user_id", VNone); ("budget", VInt 100000);
           ("selected_jobs", VList []); ("selected_tours", VList [])]))
     = Some (JArr []).
Proof.
  apply (proj1 (C5_selected_lists_default_empty plain_library V2 scenario_B
                  [("query", VStr "trip"); ("user_id", VNone); ("budget", VInt 100000);
                   ("selected_jobs", VList []); ("selected_tours", VList [])]
                  eq_refl)).
  reflexivity.
Defined.

(** Giving a key that no other field reads leaves the other fields as they
    were. *)
Lemma field_result_other_key L v loc m k j f :
  String.eqb (field_name f) k = false ->
  field_result L v loc ((k, j) :: m) f = field_result L v loc m f.
Proof. intros H. unfold field_result. simpl. now rewrite H. Qed.

(** C6.  A TourPreview constructed from an object with no [image_url] key
    has [image_url] absent ([None]); the same object with [image_url] given
    as the empty string is accepted too, stores the empty string, and the two
    records differ. *)
Theorem C6_image_url_absent_is_not_empty :
  forall (L : Library) (v : release) (m : list (string * json))
         (r : list (string * value)),
    assoc "image_url" m = None ->
    validate_and_construct L v TourPreview (JObj m) = Ok r ->
    assoc "image_url" r = Some VNone
    /\ exists r',
         validate_and_construct L v TourPreview (JObj (("image_url", JStr "") :: m))
         = Ok r'
         /\ assoc "image_url" r' = Some (VStr "")
         /\ r' <> r.
Proof.
  intros L v m r Hm Hr. unfold validate_and_construct in *. simpl as_object in *.
  apply validate_fields_ok in Hr.
  inversion Hr as [|f1 [k1 a1] ? ? [Hk1 H1] Hr1]; subst; clear Hr.
  inversion Hr1 as [|f2 [k2 a2] ? ? [Hk2 H2] Hr2]; subst; clear Hr1.
  inversion Hr2 as [|f3 [k3 a3] ? ? [Hk3 H3] Hr3]; subst; clear Hr2.
  inversion Hr3 as [|f4 [k4 a4] ? ? [Hk4 H4] Hr4]; subst; clear Hr3.
  inversion Hr4 as [|f5 [k5 a5] ? ? [Hk5 H5] Hr5]; subst; clear Hr4.
  inversion Hr5; subst; clear Hr5.
  simpl in Hk1, Hk2, Hk3, Hk4, Hk5. subst.
  simpl snd in *.
  assert (a5 = VNone) as ->.
  { unfold field_result, field_name, field_type, field_default in H5.
    simpl in H5. rewrite Hm in H5. now inversion H5. }
  split; [reflexivity|].
  exists [("content_id", a1); ("title", a2); ("region", a3); ("overview", a4);
          ("image_url", VStr "")].
  split; [|split].
  - apply validate_fields_ok.
    repeat (apply Forall2_cons; [split; [reflexivity|simpl snd]|]);
      [| | | | |apply Forall2_nil].
    + rewrite field_result_other_key; [exact H1|reflexivity].
    + rewrite field_result_other_key; [exact H2|reflexivity].
    + rewrite field_result_other_key; [exact H3|reflexivity].
    + rewrite field_result_other_key; [exact H4|reflexivity].
    + reflexivity.
  - reflexivity.
  - intros H. inversion H.
Qed.

Lemma C6_image_url_witness :
  assoc "image_url"
    [("content_id", VInt 1); ("title", VStr "t"); ("region", VStr "r");
     ("overview", VStr "o"); ("image_url", VNone)] = Some VNone
  /\ exists r',
       validate_and_construct plain_library V2 TourPreview
         (JObj (("image_url", JStr "") :: tour_members)) = Ok r'
       /\ assoc "image_url" r' = Some (VStr "")
       /\ r' <> [("content_id", VInt 1); ("title", VStr "t"); ("region", VStr "r");
                 ("overview", VStr "o"); ("image_url", VNone)].
Proof.
  apply (C6_image_url_absent_is_not_empty plain_library V2 tour_members).
  - reflexivity.
  - reflexivity.
Defined.

(** C7 (as amended).  [total_distance_km] and [total_cost_krw] are nullable:
    scenario C, which gives both as null, constructs a ScheduleItem with both
    absent, under either release.  With the two keys omitted, release 1
    constructs the same record, and release 2, for which an [Optional]
    annotation without a default is a required field, refuses the input with
    both fields missing. *)
Theorem C7_schedule_item_nullable_fields :
  forall (L : Library) (v : release),
    validate_and_construct L v ScheduleItem scenario_C = Ok scenario_C_record
    /\ validate_and_construct L v ScheduleItem scenario_C_keys_omitted
       = match v with
         | V1 => Ok scenario_C_record
         | V2 => Err [([LKey "total_distance_km"], EMissing);
                      ([LKey "total_cost_krw"], EMissing)]
         end.
Proof. intros L v. split; [reflexivity|]. destruct v; reflexivity. Qed.

(** C7, as stated, fails under release 2: with the two keys omitted the
    ScheduleItem is refused. *)
Lemma C7_counterexample :
  validate_and_construct plain_library V2 ScheduleItem scenario_C_keys_omitted
  = Err [([LKey "total_distance_km"], EMissing);
         ([LKey "total_cost_krw"], EMissing)].
Proof. reflexivity. Qed.

(** C8.  Itinerary adds no field to ScheduleItem: the two models have the
    same fields, and for every input they construct the same record or fail
    with the same errors, hence serialize to the same JSON. *)
Theorem C8_itinerary_is_schedule_item :
  forall (L : Library) (v : release) (x : json),
    fields_of Itinerary = fields_of ScheduleItem
    /\ validate_and_construct L v Itinerary x
       = validate_and_construct L v ScheduleItem x
    /\ result_map (serialize L) (validate_and_construct L v Itinerary x)
       = result_map (serialize L) (validate_and_construct L v ScheduleItem x).
Proof. intros L v x. repeat split; reflexivity. Qed.

Lemma serialize_keys L v c x r :
  validate_and_construct L v c x = Ok r ->
  keys (members_of (serialize L r)) = names (fields_of c).
Proof.
  unfold validate_and_construct. destruct (as_object L x) as [m|]; [|discriminate].
  intros H. apply validate_fields_keys in H. rewrite <- H.
  unfold serialize, keys. simpl. rewrite map_map. apply map_ext.
  now intros [k a].
Qed.

(** C9.  Serialization of a RecommendRequest writes the keys query,
    user_id, budget, selected_jobs, selected_tours in this order: the fields
    of RecommendationRequest first, with the names, types and defaults
    declared there, then the two added fields.  Serialization of an Itinerary
    writes the keys day, date, plan_items, total_distance_km, total_cost_krw
    in this order, with the fields of ScheduleItem unchanged. *)
Theorem C9_extension_keeps_base_fields :
  forall (L : Library) (v : release),
    (forall x r, validate_and_construct L v RecommendRequest x = Ok r ->
       keys (members_of (serialize L r))
       = ["query"; "user_id"; "budget"; "selected_jobs"; "selected_tours"])
    /\ fields_of RecommendRequest
       = fields_of RecommendationRequest ++ declared RecommendRequest
    /\ (forall x r, validate_and_construct L v Itinerary x = Ok r ->
       keys (members_of (serialize L r))
       = ["day"; "date"; "plan_items"; "total_distance_km"; "total_cost_krw"])
    /\ fields_of Itinerary = fields_of ScheduleItem.
Proof.
  intros L v. repeat split.
  - intros x r H. now rewrite (serialize_keys L v RecommendRequest x r H).
  - intros x r H. now rewrite (serialize_keys L v Itinerary x r H).
Qed.

Lemma C9_extension_witness :
  keys (members_of (serialize plain_library
          [("query", VStr "trip"); ("user_id", VNone); ("budget", VInt 100000);
           ("selected_jobs", VList []); ("selected_tours", VList [])]))
  = ["query"; "user_id"; "budget"; "selected_jobs"; "selected_tours"].
Proof.
  apply (proj1 (C9_extension_keeps_base_fields plain_library V2) (JObj scenario_B)).
  reflexivity.
Defined.

(** C10.  Not every value of another type is refused for [budget]: the
    string "100000" and the boolean true are not JSON integers, and a
    RecommendationRequest is constructed from each, with budget 100000 and 1
    respectively. *)
Theorem C10_budget_is_coerced :
  forall (L : Library) (v : release),
    matches v TInt (JStr "100000") = false
    /\ validate_and_construct L v RecommendationRequest
         (JObj [("query", JStr "x"); ("budget", JStr "100000")])
       = Ok [("query", VStr "x"); ("user_id", VNone); ("budget", VInt 100000)]
    /\ matches v TInt (JBool true) = false
    /\ validate_and_construct L v RecommendationRequest
         (JObj [("query", JStr "x"); ("budget", JBool true)])
       = Ok [("query", VStr "x"); ("user_id", VNone); ("budget", VInt 1)].
Proof. intros L v. repeat split; reflexivity. Qed.

(** * Further properties of the models *)

Lemma errors_of_collect {A B : Type} (r : result A) (rest : result (list B))
    (pack : A -> B) :
  errors_of (collect r rest pack) = errors_of r ++ errors_of rest.
Proof.
  destruct r as [a|es], rest as [l|es']; simpl; try reflexivity.
  now rewrite app_nil_r.
Qed.

Lemma validate_fields_errors L v fs loc m :
  errors_of (validate_fields L v fs loc m)
  = flat_map (fun f => errors_of (field_result L v loc m f)) fs.
Proof.
  induction fs as [|f rest IH]; [reflexivity|].
  rewrite validate_fields_cons, errors_of_collect, IH. reflexivity.
Qed.

(** X1.  The errors of a refused input are the errors of every offending
    field, one field after the other in declaration order: no field's errors
    are dropped once another field has failed. *)
Theorem X1_all_field_errors_reported :
  forall (L : Library) (v : release) (c : model_class) (m : list (string * json)),
    errors_of (validate_and_construct L v c (JObj m))
    = flat_map (fun f => errors_of (field_result L v [] m f)) (fields_of c).
Proof.
  intros L v c m. unfold validate_and_construct. simpl as_object.
  apply validate_fields_errors.
Qed.

Lemma validate_fields_agree L v fs loc m m' :
  (forall n, In n (names fs) -> assoc n m = assoc n m') ->
  validate_fields L v fs loc m = validate_fields L v fs loc m'.
Proof.
  induction fs as [|f rest IH]; intros H; [reflexivity|].
  rewrite !validate_fields_cons. rewrite IH.
  - unfold field_result. rewrite (H (field_name f)); [reflexivity|].
    simpl. now left.
  - intros n Hn. apply H. simpl. now right.
Qed.

(** X2.  Construction reads the input only through the values bound to the
    declared field names: two objects that bind every declared name alike
    (whatever the order of their members) give the same record or the same
    errors. *)
Theorem X2_member_order_is_irrelevant :
  forall (L : Library) (v : release) (c : model_class)
         (m m' : list (string * json)),
    (forall n, In n (names (fields_of c)) -> assoc n m = assoc n m') ->
    validate_and_construct L v c (JObj m) = validate_and_construct L v c (JObj m').
Proof.
  intros L v c m m' H. unfold validate_and_construct. simpl as_object.
  now apply validate_fields_agree.
Qed.

Lemma X2_member_order_witness :
  validate_and_construct plain_library V2 RecommendationRequest
    (JObj [("query", JStr "trip"); ("budget", JInt 100000)])
  = validate_and_construct plain_library V2 RecommendationRequest
      (JObj [("budget", JInt 100000); ("query", JStr "trip")]).
Proof.
  apply (X2_member_order_is_irrelevant plain_library V2 RecommendationRequest).
  intros n [<-|[<-|[<-|[]]]]; reflexivity.
Defined.

Lemma assoc_insert_other {A : Type} (n k : string) (a : A) (m1 m2 : list (string * A)) :
  n <> k -> assoc n (m1 ++ (k, a) :: m2) = assoc n (m1 ++ m2).
Proof.
  intros Hne. induction m1 as [|[k' a'] rest IH]; simpl.
  - destruct (String.eqb n k) eqn:E; [|reflexivity].
    apply String.eqb_eq in E. contradiction.
  - destruct (String.eqb n k'); [reflexivity|exact IH].
Qed.

(** X3.  A member whose key is not a declared field name is ignored,
    wherever it stands in the object: the model is constructed, or refused,
    as without it. *)
Theorem X3_undeclared_key_is_ignored :
  forall (L : Library) (v : release) (c : model_class)
         (m1 m2 : list (string * json)) (k : string) (j : json),
    ~ In k (names (fields_of c)) ->
    validate_and_construct L v c (JObj (m1 ++ (k, j) :: m2))
    = validate_and_construct L v c (JObj (m1 ++ m2)).
Proof.
  intros L v c m1 m2 k j Hk. unfold validate_and_construct. simpl as_object.
  apply validate_fields_agree. intros n Hn. apply assoc_insert_other.
  intros ->. contradiction.
Qed.

Lemma X3_undeclared_key_witness :
  validate_and_construct plain_library V2 SlotQuery
    (JObj ([("query", JStr "trip")] ++ ("lang", JStr "ko") :: []))
  = validate_and_construct plain_library V2 SlotQuery
      (JObj ([("query", JStr "trip")] ++ [])).
Proof.
  apply (X3_undeclared_key_is_ignored plain_library V2 SlotQuery).
  simpl. intros [H|[]]. discriminate H.
Defined.

Lemma validate_null_refused L v t loc :
  is_optional t = false -> validate L v t loc JNull = Err [(loc, EInvalid)].
Proof. destruct t; simpl; intros H; try reflexivity; discriminate. Qed.

(** X4.  Null is not a value of a field that is not declared [Optional]: for
    each model, an object that gives null for such a field is refused with an
    error at that field. *)
Theorem X4_null_refused_for_non_optional_field :
  forall (L : Library) (v : release) (c : model_class)
         (m : list (string * json)) (n : string) (ty : ftype) (d : default),
    In (n, ty, d) (fields_of c) ->
    is_optional ty = false ->
    assoc n m = Some JNull ->
    exists es,
      validate_and_construct L v c (JObj m) = Err es
      /\ In ([LKey n], EInvalid) es.
Proof.
  intros L v c m n ty d Hin Hopt Hm.
  destruct (validate_fields_err L v (fields_of c) [] m (n, ty, d)
              [([LKey n], EInvalid)] Hin) as [es [Hes Hincl]].
  - unfold field_result, field_name, field_type, field_default. simpl.
    rewrite Hm. simpl. now apply validate_null_refused.
  - exists es. split; [exact Hes|]. apply Hincl. now left.
Qed.

Lemma X4_null_refused_witness :
  exists es,
    validate_and_construct plain_library V2 RecommendRequest
      (JObj [("query", JStr "trip"); ("budget", JInt 1); ("selected_jobs", JNull)])
    = Err es
    /\ In ([LKey "selected_jobs"], EInvalid) es.
Proof.
  apply (X4_null_refused_for_non_optional_field plain_library V2 RecommendRequest
           [("query", JStr "trip"); ("budget", JInt 1); ("selected_jobs", JNull)]
           "selected_jobs" (TList TInt) (Default (VList []))).
  - simpl. tauto.
  - reflexivity.
  - reflexivity.
Defined.

(** X5.  Null is accepted for a field declared [Optional] and is stored as
    [None]: in every record constructed from an object that gives null for
    such a field, the field is [None] and is serialized as null. *)
Theorem X5_null_accepted_for_optional_field :
  forall (L : Library) (v : release) (c : model_class)
         (m : list (string * json)) (r : list (string * value))
         (n : string) (ty : ftype) (d : default),
    In (n, TOptional ty, d) (fields_of c) ->
    assoc n m = Some JNull ->
    validate_and_construct L v c (JObj m) = Ok r ->
    assoc n r = Some VNone
    /\ assoc n (members_of (serialize L r)) = Some JNull.
Proof.
  intros L v c m r n ty d Hin Hm Hr.
  unfold validate_and_construct in Hr. simpl as_object in Hr.
  assert (distinct (names (fields_of c)) = true) as Hd by (destruct c; reflexivity).
  destruct (validate_fields_assoc L v _ _ _ _ _ Hr Hd Hin) as [a [Ha Hres]].
  unfold field_result, field_name, field_type, field_default in *.
  simpl in Ha, Hres. rewrite Hm in Hres. simpl in Hres.
  inversion Hres; subst a. split; [exact Ha|].
  simpl. now rewrite assoc_map, Ha.
Qed.

Lemma X5_null_accepted_witness :
  assoc "user_id" [("query", VStr "trip"); ("user_id", VNone); ("budget", VInt 1)]
  = Some VNone
  /\ assoc "user_id"
       (members_of (serialize plain_library
          [("query", VStr "trip"); ("user_id", VNone); ("budget", VInt 1)]))
     = Some JNull.
Proof.
  apply (X5_null_accepted_for_optional_field plain_library V2 RecommendationRequest
           [("query", JStr "trip"); ("user_id", JNull); ("budget", JInt 1)]
           [("query", VStr "trip"); ("user_id", VNone); ("budget", VInt 1)]
           "user_id" TUuid (Default VNone)).
  - simpl. tauto.
  - reflexivity.
  - reflexivity.
Defined.

Lemma errors_of_result_map {A B : Type} (f : A -> B) (r : result A) :
  errors_of (result_map f r) = errors_of r.
Proof. now destruct r. Qed.

Section ErrorLocations.

Variable L : Library.
Variable v : release.

Lemma located_here loc k : located loc [(loc, k)].
Proof. constructor; [|constructor]. exists []. simpl. now rewrite app_nil_r. Qed.

Lemma located_of_option {A : Type} loc (o : option A) :
  located loc (errors_of (of_option loc o)).
Proof. destruct o; simpl; [constructor|apply located_here]. Qed.

Lemma located_below loc step es :
  located (loc ++ step) es -> located loc es.
Proof.
  intros H. eapply Forall_impl; [|exact H].
  intros e [rest Hr]. exists (step ++ rest). now rewrite Hr, app_assoc.
Qed.

Lemma validate_items_located (check : list loc_item -> json -> result value) items :
  Forall (fun x => forall loc, located loc (errors_of (check loc x))) items ->
  forall loc i, located loc (errors_of (validate_items check loc i items)).
Proof.
  induction 1 as [|x rest Hx _ IH]; intros loc i; simpl; [constructor|].
  rewrite errors_of_collect. apply Forall_app. split.
  - apply located_below with (step := [LIdx i]). apply Hx.
  - apply IH.
Qed.

Lemma validate_located (t : ftype) :
  forall loc j, located loc (errors_of (validate L v t loc j)).
Proof.
  induction t as [| | | | |t IH|t IH|fs IH] using ftype_nested_ind; intros loc j.
  - destruct j; simpl; try apply located_here; try apply located_of_option.
    constructor.
  - destruct j; simpl; try apply located_here; try apply located_of_option;
      constructor.
  - destruct j; simpl; try apply located_here; try apply located_of_option;
      constructor.
  - destruct j; simpl; try apply located_here; apply located_of_option.
  - simpl. rewrite errors_of_result_map. apply located_of_option.
  - destruct j; simpl; try apply located_here.
    rewrite errors_of_result_map. apply validate_items_located.
    apply Forall_forall. intros x _ loc'. apply IH.
  - destruct j; simpl; try apply IH. constructor.
  - rewrite validate_model_eq. destruct (as_object L j) as [m|];
      [|apply located_here].
    rewrite errors_of_result_map, validate_fields_errors.
    unfold located. apply Forall_forall. intros e He.
    apply in_flat_map in He. destruct He as [f [Hf He]].
    rewrite Forall_forall in IH. specialize (IH f Hf).
    assert (located (loc ++ [LKey (field_name f)])
              (errors_of (field_result L v loc m f))) as Hloc.
    { unfold field_result, resolve.
      destruct (assoc (field_name f) m) as [x|]; [apply IH|].
      destruct (field_default f); [|constructor].
      destruct (implicit_none v && is_optional (field_type f));
        [constructor|apply located_here]. }
    apply located_below in Hloc. unfold located in Hloc.
    rewrite Forall_forall in Hloc. now apply Hloc.
Qed.

Lemma field_result_located loc m f :
  located (loc ++ [LKey (field_name f)]) (errors_of (field_result L v loc m f)).
Proof.
  unfold field_result, resolve.
  destruct (assoc (field_name f) m) as [x|]; [apply validate_located|].
  destruct (field_default f); [|constructor].
  destruct (implicit_none v && is_optional (field_type f));
    [constructor|apply located_here].
Qed.

End ErrorLocations.

(** X6.  Every error of a refused object is located at a declared field of
    the model or below it: its location starts with the name of a field of
    the class. *)
Theorem X6_errors_are_located_at_declared_fields :
  forall (L : Library) (v : release) (c : model_class)
         (m : list (string * json)) (es : list error) (e : error),
    validate_and_construct L v c (JObj m) = Err es ->
    In e es ->
    exists n rest, In n (names (fields_of c)) /\ fst e = LKey n :: rest.
Proof.
  intros L v c m es e Hes He.
  assert (errors_of (validate_and_construct L v c (JObj m)) = es) as Hq
    by now rewrite Hes.
  change (errors_of (validate_fields L v (fields_of c) [] m) = es) in Hq.
  rewrite validate_fields_errors in Hq. rewrite <- Hq in He.
  apply in_flat_map in He. destruct He as [f [Hf He]].
  pose proof (field_result_located L v [] m f) as Hloc.
  unfold located in Hloc. rewrite Forall_forall in Hloc.
  destruct (Hloc e He) as [rest Hr].
  exists (field_name f), rest. split; [now apply in_map|exact Hr].
Qed.

Lemma X6_errors_located_witness :
  exists n rest,
    In n (names (fields_of JobPreview))
    /\ fst ([LKey "tags"; LIdx 1], EInvalid) = LKey n :: rest.
Proof.
  apply (X6_errors_are_located_at_declared_fields plain_library V2 JobPreview
           [("job_id", JInt 7); ("farm_name", JStr "f"); ("region", JStr "r");
            ("tags", JArr [JStr "a"; JNull])]
           [([LKey "tags"; LIdx 1], EInvalid)]).
  - reflexivity.
  - simpl. tauto.
Defined.

Lemma validate_items_nth_err (check : list loc_item -> json -> result value) items :
  forall loc i k x es0,
    nth_error items k = Some x ->
    check (loc ++ [LIdx (i + k)]) x = Err es0 ->
    exists es, validate_items check loc i items = Err es /\ incl es0 es.
Proof.
  induction items as [|y rest IH]; intros loc i k x es0 Hk Hx.
  - destruct k; discriminate.
  - destruct k as [|k]; simpl in Hk |- *.
    + inversion Hk; subst y. rewrite Nat.add_0_r in Hx. rewrite Hx.
      destruct (validate_items check loc (S i) rest) as [l|es']; simpl.
      * exists es0. split; [reflexivity|apply incl_refl].
      * exists (es0 ++ es'). split; [reflexivity|apply incl_appl, incl_refl].
    + rewrite <- Nat.add_succ_comm in Hx.
      destruct (IH loc (S i) k x es0 Hk Hx) as [es [Hes Hincl]]. rewrite Hes.
      destruct (check (loc ++ [LIdx i]) y) as [a|ey]; simpl.
      * exists es. split; [reflexivity|assumption].
      * exists (ey ++ es). split; [reflexivity|now apply incl_appr].
Qed.

Lemma validate_items_nth_ok (check : list loc_item -> json -> result value) items :
  forall loc i l,
    validate_items check loc i items = Ok l ->
    List.length l = List.length items
    /\ forall k x, nth_error items k = Some x ->
         exists a, nth_error l k = Some a
                   /\ check (loc ++ [LIdx (i + k)]) x = Ok a.
Proof.
  induction items as [|y rest IH]; intros loc i l H; simpl in H.
  - inversion H. split; [reflexivity|]. intros [|k] x Hk; discriminate.
  - destruct (check (loc ++ [LIdx i]) y) as [a|ey] eqn:Ey;
      destruct (validate_items check loc (S i) rest) as [l'|es'] eqn:El;
      simpl in H; try discriminate.
    inversion H; subst l. destruct (IH loc (S i) l' El) as [Hlen Hnth].
    split; [simpl; now rewrite Hlen|].
    intros [|k] x Hk; simpl in Hk |- *.
    + inversion Hk; subst y. exists a. now rewrite Nat.add_0_r.
    + destruct (Hnth k x Hk) as [a' [Ha' Hc]]. exists a'.
      now rewrite <- Nat.add_succ_comm.
Qed.

(** X7.  An item of a list field that its item type refuses is reported at
    its index: the errors of the item, located at field and index, are among
    the errors of the model, whatever the other items are. *)
Theorem X7_list_item_error_at_its_index :
  forall (L : Library) (v : release) (c : model_class)
         (m : list (string * json)) (n : string) (t : ftype) (d : default)
         (items : list json) (k : nat) (x : json) (es0 : list error),
    In (n, TList t, d) (fields_of c) ->
    assoc n m = Some (JArr items) ->
    nth_error items k = Some x ->
    validate L v t [LKey n; LIdx k] x = Err es0 ->
    exists es,
      validate_and_construct L v c (JObj m) = Err es /\ incl es0 es.
Proof.
  intros L v c m n t d items k x es0 Hin Hm Hk Hx.
  destruct (validate_items_nth_err (validate L v t) items [LKey n] 0 k x es0 Hk Hx)
    as [es1 [Hes1 Hincl1]].
  destruct (validate_fields_err L v (fields_of c) [] m (n, TList t, d) es1 Hin)
    as [es [Hes Hincl]].
  - unfold field_result, field_name, field_type, field_default. simpl.
    rewrite Hm. simpl. now rewrite Hes1.
  - exists es. split; [exact Hes|]. eapply incl_tran; eassumption.
Qed.

Lemma X7_list_item_error_witness :
  exists es,
    validate_and_construct plain_library V2 RecommendRequest
      (JObj [("query", JStr "trip"); ("budget", JInt 1);
             ("selected_tours", JArr [JInt 3; JStr "x4"; JInt 5])]) = Err es
    /\ incl [([LKey "selected_tours"; LIdx 1], EInvalid)] es.
Proof.
  apply (X7_list_item_error_at_its_index plain_library V2 RecommendRequest
           [("query", JStr "trip"); ("budget", JInt 1);
            ("selected_tours", JArr [JInt 3; JStr "x4"; JInt 5])]
           "selected_tours" TInt (Default (VList []))
           [JInt 3; JStr "x4"; JInt 5] 1 (JStr "x4")).
  - simpl. tauto.
  - reflexivity.
  - reflexivity.
  - reflexivity.
Defined.

(** X8.  A list field keeps the length and the order of the given array: in
    a constructed record the field is a list with one value per given item,
    the value at each index being the given item at that index validated at
    the item type. *)
Theorem X8_list_field_keeps_order :
  forall (L : Library) (v : release) (c : model_class)
         (m : list (string * json)) (r : list (string * value))
         (n : string) (t : ftype) (d : default) (items : list json),
    In (n, TList t, d) (fields_of c) ->
    assoc n m = Some (JArr items) ->
    validate_and_construct L v c (JObj m) = Ok r ->
    exists l,
      assoc n r = Some (VList l)
      /\ List.length l = List.length items
      /\ forall k x, nth_error items k = Some x ->
           exists a, nth_error l k = Some a
                     /\ validate L v t [LKey n; LIdx k] x = Ok a.
Proof.
  intros L v c m r n t d items Hin Hm Hr.
  unfold validate_and_construct in Hr. simpl as_object in Hr.
  assert (distinct (names (fields_of c)) = true) as Hd by (destruct c; reflexivity).
  destruct (validate_fields_assoc L v _ _ _ _ _ Hr Hd Hin) as [a [Ha Hres]].
  unfold field_result, field_name, field_type, field_default in *.
  simpl in Ha, Hres. rewrite Hm in Hres. simpl in Hres.
  destruct (validate_items (validate L v t) [LKey n] 0 items) as [l|es] eqn:El;
    [|discriminate].
  simpl in Hres. inversion Hres; subst a. exists l. split; [exact Ha|].
  exact (validate_items_nth_ok (validate L v t) items [LKey n] 0 l El).
Qed.

Lemma X8_list_field_witness :
  exists l,
    assoc "tags" [("job_id", VInt 7); ("farm_name", VStr "f"); ("region", VStr "r");
                  ("tags", VList [VStr "b"; VStr "a"])] = Some (VList l)
    /\ List.length l = List.length [JStr "b"; JStr "a"]
    /\ forall k x, nth_error [JStr "b"; JStr "a"] k = Some x ->
         exists a, nth_error l k = Some a
                   /\ validate plain_library V2 TStr [LKey "tags"; LIdx k] x = Ok a.
Proof.
  apply (X8_list_field_keeps_order plain_library V2 JobPreview
           [("job_id", JInt 7); ("farm_name", JStr "f"); ("region", JStr "r");
            ("tags", JArr [JStr "b"; JStr "a"])]
           [("job_id", VInt 7); ("farm_name", VStr "f"); ("region", VStr "r");
            ("tags", VList [VStr "b"; VStr "a"])]
           "tags" TStr Required).
  - simpl. tauto.
  - reflexivity.
  - reflexivity.
Defined.

Lemma Forall2_impl_in {A B : Type} (T R : A -> B -> Prop) l1 l2 :
  Forall2 T l1 l2 ->
  (forall a b, In a l1 -> In b l2 -> T a b -> R a b) ->
  Forall2 R l1 l2.
Proof.
  induction 1 as [|a b l1 l2 Hab _ IH]; intros H; constructor.
  - apply H; simpl; tauto.
  - apply IH. intros a' b' Ha' Hb'. apply H; simpl; tauto.
Qed.

Section TypedRecords.

Variable L : Library.
Variable v : release.

Lemma has_type_model fs r :
  has_type (TModel fs) (VModel r) = true <->
  Forall2 (fun f kv => fst kv = field_name f
                       /\ has_type (field_type f) (snd kv) = true) fs r.
Proof.
  simpl. revert r. induction fs as [|[[n ty] d] rest IH]; intros r.
  - destruct r; split; intros H; try constructor; try discriminate.
    inversion H.
  - destruct r as [|[k x] r'].
    + split; intros H; [discriminate|inversion H].
    + split; intros H.
      * apply andb_true_iff in H. destruct H as [H Hrest].
        apply andb_true_iff in H. destruct H as [Hk Hx].
        apply String.eqb_eq in Hk. constructor; [now split|now apply IH].
      * inversion H as [|? ? ? ? [Hk Hx] Hrest]; subst.
        unfold field_name, field_type in Hk, Hx. simpl in Hk, Hx.
        subst k. rewrite String.eqb_refl, Hx. simpl. now apply IH.
Qed.

Lemma defaults_typed_model fs :
  defaults_typed (TModel fs)
  = forallb (fun f => default_typed (field_type f) (field_default f)
                      && defaults_typed (field_type f)) fs.
Proof.
  simpl. induction fs as [|[[n ty] d] rest IH]; [reflexivity|].
  simpl. now rewrite IH.
Qed.

Lemma validate_items_all (check : list loc_item -> json -> result value)
    (P : value -> Prop) items :
  Forall (fun x => forall loc a, check loc x = Ok a -> P a) items ->
  forall loc i l, validate_items check loc i items = Ok l -> Forall P l.
Proof.
  induction 1 as [|x rest Hx _ IH]; intros loc i l H; simpl in H.
  - inversion H. constructor.
  - destruct (check (loc ++ [LIdx i]) x) as [a|ex] eqn:Ex;
      destruct (validate_items check loc (S i) rest) as [l'|es'] eqn:El;
      simpl in H; try discriminate.
    inversion H; subst l. constructor; [now apply (Hx _ _ Ex)|].
    now apply (IH loc (S i)).
Qed.

Ltac scalar_case H :=
  repeat match type of H with
         | of_option _ (option_map _ ?o) = Ok _ =>
             destruct o; simpl in H; [|discriminate]
         end;
  inversion H; reflexivity.

(** What construction accepts is a value of the declared type. *)
Lemma validate_typed (t : ftype) :
  defaults_typed t = true ->
  forall loc j a, validate L v t loc j = Ok a -> has_type t a = true.
Proof.
  induction t as [| | | | |t IH|t IH|fs IH] using ftype_nested_ind;
    intros Hdt loc j a H.
  - destruct j; simpl in H; try discriminate; scalar_case H.
  - destruct j; simpl in H; try discriminate; scalar_case H.
  - destruct j; simpl in H; try discriminate; scalar_case H.
  - destruct j; simpl in H; try discriminate; scalar_case H.
  - simpl in H. destruct (as_object L j); simpl in H; [|discriminate].
    inversion H. reflexivity.
  - destruct j; simpl in H; try discriminate.
    destruct (validate_items (validate L v t) loc 0 items) as [l|es] eqn:El;
      simpl in H; [|discriminate].
    inversion H; subst a. simpl. apply forallb_forall.
    assert (Forall (fun a => has_type t a = true) l) as HF.
    { apply (validate_items_all (validate L v t) _ items) with (loc := loc) (i := 0%nat);
        [|exact El].
      apply Forall_forall. intros x _ loc' a' Ha'. now apply (IH Hdt loc' x). }
    rewrite Forall_forall in HF. exact HF.
  - assert (has_type t a = true -> has_type (TOptional t) a = true) as Hup
      by (simpl; now destruct a).
    destruct j; simpl in H; try (apply Hup; now apply (IH Hdt _ _ _ H)).
    inversion H. reflexivity.
  - rewrite validate_model_eq in H.
    destruct (as_object L j) as [m|]; [|discriminate].
    destruct (validate_fields L v fs loc m) as [r|es] eqn:Hr; [|discriminate].
    simpl in H. inversion H; subst a. apply has_type_model.
    apply validate_fields_ok in Hr.
    rewrite defaults_typed_model in Hdt. rewrite forallb_forall in Hdt.
    rewrite Forall_forall in IH.
    apply (Forall2_impl_in _ _ _ _ Hr). intros f kv Hf _ [Hk Hres].
    split; [exact Hk|]. specialize (Hdt f Hf).
    apply andb_true_iff in Hdt. destruct Hdt as [Hdef Hsub].
    unfold field_result, resolve in Hres.
    destruct (assoc (field_name f) m) as [x|].
    + now apply (IH f Hf Hsub _ _ _ Hres).
    + unfold default_typed in Hdef. destruct (field_default f) as [|dv].
      * destruct (implicit_none v && is_optional (field_type f)) eqn:E;
          [|discriminate].
        inversion Hres. apply andb_true_iff in E. destruct E as [_ E].
        destruct (field_type f); try discriminate. reflexivity.
      * inversion Hres. now subst.
Qed.

End TypedRecords.

Lemma fields_defaults_typed (c : model_class) :
  defaults_typed (TModel (fields_of c)) = true.
Proof. destruct c; reflexivity. Qed.

(** X9.  A constructed record is typed as declared: its fields are the
    declared ones in declaration order, and each holds a value of the
    declared type of the field (a string, an integer, a float, a UUID, a
    mapping, a list of typed items, a typed nested record), or [None] where
    the field is declared [Optional]. *)
Theorem X9_constructed_record_is_typed :
  forall (L : Library) (v : release) (c : model_class) (x : json)
         (r : list (string * value)),
    validate_and_construct L v c x = Ok r ->
    has_type (TModel (fields_of c)) (VModel r) = true.
Proof.
  intros L v c x r H.
  apply (validate_typed L v (TModel (fields_of c)) (fields_defaults_typed c) [] x).
  rewrite validate_model_eq. unfold validate_and_construct in H.
  destruct (as_object L x) as [m|]; [|discriminate]. now rewrite H.
Qed.

Lemma X9_constructed_record_witness :
  has_type (TModel (fields_of RecommendationRequest))
    (VModel [("query", VStr "x"); ("user_id", VNone); ("budget", VInt 1)]) = true.
Proof.
  apply (X9_constructed_record_is_typed plain_library V2 RecommendationRequest
           (JObj [("query", JStr "x"); ("budget", JBool true)])).
  reflexivity.
Defined.

(** The text of a UUID reads back as the UUID. *)
Lemma hex_value_digit (d : N) :
  (d < 16)%N -> hex_value (hex_digit d) = Some d.
Proof.
  intros Hd.
  assert (In d (map N.of_nat (seq 0 16))) as Hin.
  { rewrite <- (N2Nat.id d). apply in_map, in_seq. lia. }
  simpl in Hin.
  repeat (destruct Hin as [<-|Hin]; [reflexivity|]). contradiction.
Qed.

Lemma hex_number_text (n : nat) :
  forall u tail acc,
    hex_number (hex_text n u tail) acc
    = hex_number tail (acc * 16 ^ N.of_nat n + u mod 16 ^ N.of_nat n)%N.
Proof.
  induction n as [|n IH]; intros u tail acc.
  - simpl. f_equal. rewrite N.mod_1_r. lia.
  - rewrite Nat2N.inj_succ, N.pow_succ_r'.
    cbn [hex_text]. rewrite IH. cbn [hex_number].
    rewrite hex_value_digit by (apply N.mod_lt; lia). f_equal.
    rewrite (N.Div0.mod_mul_r u 16 (16 ^ N.of_nat n)). lia.
Qed.

Lemma hex_text_length (n : nat) :
  forall u tail, List.length (hex_text n u tail) = (n + List.length tail)%nat.
Proof.
  induction n as [|n IH]; intros u tail; [reflexivity|].
  simpl. rewrite IH. simpl. lia.
Qed.

Lemma hyphenated_grouped (h : list ascii) :
  List.length h = 32%nat ->
  hyphenated_uuid
    (string_of_list_ascii
       (firstn 8 h ++ "-"%char :: firstn 4 (skipn 8 h) ++ "-"%char
        :: firstn 4 (skipn 12 h) ++ "-"%char :: firstn 4 (skipn 16 h)
        ++ "-"%char :: skipn 20 h))
  = hex_number h 0.
Proof.
  intros Hlen.
  do 32 (destruct h as [|? h]; [discriminate Hlen|]).
  destruct h; [|discriminate Hlen].
  unfold hyphenated_uuid. rewrite list_ascii_of_string_of_list_ascii.
  reflexivity.
Qed.

Lemma uuid_text_reads_back (u : N) :
  (u < 2 ^ 128)%N -> hyphenated_uuid (uuid_text u) = Some u.
Proof.
  intros Hu. unfold uuid_text.
  rewrite hyphenated_grouped by (rewrite hex_text_length; reflexivity).
  rewrite hex_number_text. simpl hex_number. f_equal.
  change (16 ^ N.of_nat 32)%N with (2 ^ 128)%N.
  rewrite N.mod_small by exact Hu. lia.
Qed.

Lemma assoc_in_distinct {A : Type} (r : list (string * A)) (k : string) (a : A) :
  distinct (keys r) = true -> In (k, a) r -> assoc k r = Some a.
Proof.
  induction r as [|[k' a'] rest IH]; intros Hd Hin; [contradiction|].
  simpl in Hd. apply andb_true_iff in Hd. destruct Hd as [Hfresh Hd].
  simpl. destruct Hin as [Heq|Hin].
  - inversion Heq; subst. now rewrite String.eqb_refl.
  - destruct (String.eqb k k') eqn:E; [|now apply IH].
    apply String.eqb_eq in E. subst k'. exfalso.
    apply negb_true_iff in Hfresh.
    assert (existsb (String.eqb k) (keys rest) = true) as Hx.
    { apply existsb_exists. exists k. split; [|apply String.eqb_refl].
      unfold keys. change k with (fst (k, a)). now apply in_map. }
    congruence.
Qed.

Section Revalidation.

Variable L : Library.
Variable v : release.

Lemma dump_members_finite (m : list (string * json)) :
  forallb (fun kv => match kv with (_, x) => finite_floats x end) m = true ->
  map (fun kv => match kv with (k, x) => (k, dump_any L x) end) m = m.
Proof.
  induction m as [|[k x] rest IH]; intros H; [reflexivity|].
  simpl in H. apply andb_true_iff in H. destruct H as [Hx Hrest].
  simpl. now rewrite (dump_any_finite L x Hx), IH.
Qed.

Lemma validate_items_dump (t : ftype) (l : list value) :
  Forall (fun a => forall loc, validate L v t loc (dump L a) = Ok a) l ->
  forall loc i, validate_items (validate L v t) loc i (map (dump L) l) = Ok l.
Proof.
  induction 1 as [|a rest Ha _ IH]; intros loc i; [reflexivity|].
  simpl. now rewrite Ha, IH.
Qed.

Lemma dump_not_null (a : value) :
  plain_value a = true -> a <> VNone -> dump L a <> JNull.
Proof.
  intros Hp Ha. destruct a; cbn [dump]; try discriminate.
  - contradiction.
  - cbn [plain_value] in Hp. unfold dump_float. rewrite Hp. discriminate.
Qed.

Lemma validate_optional_given (t : ftype) loc j :
  j <> JNull -> validate L v (TOptional t) loc j = validate L v t loc j.
Proof. intros Hj. destruct j; try reflexivity. contradiction. Qed.

Lemma has_type_optional (t : ftype) (a : value) :
  has_type (TOptional t) a = true -> a <> VNone -> has_type t a = true.
Proof. intros H Ha. destruct a; try exact H. contradiction. Qed.

(** A typed value with finite floats and 128-bit UUIDs is read back from its
    dump. *)
Lemma revalidate (t : ftype) :
  well_formed t = true ->
  forall loc a, has_type t a = true -> plain_value a = true ->
  validate L v t loc (dump L a) = Ok a.
Proof.
  induction t as [| | | | |t IH|t IH|fs IH] using ftype_nested_ind;
    intros Hwf loc a Ht Hp.
  - destruct a; try discriminate Ht. reflexivity.
  - destruct a; try discriminate Ht. reflexivity.
  - destruct a; try discriminate Ht. cbn [plain_value] in Hp.
    cbn [dump]. unfold dump_float. now rewrite Hp.
  - destruct a; try discriminate Ht. cbn [plain_value] in Hp.
    apply N.ltb_lt in Hp. cbn [dump validate validate_uuid].
    unfold uuid_of_string. now rewrite (uuid_text_reads_back u Hp).
  - destruct a; try discriminate Ht. cbn [plain_value] in Hp.
    cbn [dump validate as_object]. now rewrite (dump_members_finite members Hp).
  - destruct a; try discriminate Ht. cbn [has_type] in Ht.
    cbn [plain_value] in Hp. cbn [dump validate].
    rewrite forallb_forall in Ht, Hp.
    rewrite validate_items_dump; [reflexivity|].
    apply Forall_forall. intros a Ha loc'. apply IH; auto.
  - assert (a = VNone \/ a <> VNone) as [->|Ha]
      by (destruct a; [now left|right; discriminate..]).
    + reflexivity.
    + rewrite validate_optional_given by now apply dump_not_null.
      apply IH; [exact Hwf| |exact Hp]. now apply has_type_optional.
  - destruct a; try discriminate Ht.
    apply has_type_model in Ht.
    rewrite well_formed_model in Hwf. apply andb_true_iff in Hwf.
    destruct Hwf as [Hd Hwf]. rewrite forallb_forall in Hwf.
    rewrite Forall_forall in IH.
    assert (keys fields = names fs) as Hkeys.
    { clear -Ht. induction Ht as [|f kv fs' r' [Hk _] _ IHr]; [reflexivity|].
      unfold keys, names in *. simpl. now rewrite Hk, IHr. }
    rewrite validate_model_eq. cbn [dump as_object].
    assert (validate_fields L v fs loc
              (map (fun kv => match kv with (k, x) => (k, dump L x) end) fields)
            = Ok fields) as Hr; [|now rewrite Hr].
    apply validate_fields_ok.
    cbn [plain_value] in Hp. rewrite forallb_forall in Hp.
    apply (Forall2_impl_in _ _ _ _ Ht). intros f [k x] Hf Hkv [Hk Hx].
    cbn [fst snd] in Hk, Hx |- *. split; [exact Hk|].
    unfold field_result. rewrite assoc_map.
    rewrite (assoc_in_distinct fields (field_name f) x).
    + cbn [option_map resolve]. apply IH; auto. exact (Hp (k, x) Hkv).
    + now rewrite Hkeys.
    + now rewrite <- Hk.
Qed.

End Revalidation.

(** X10.  What a model serializes to is accepted back as the same record:
    for a record constructed from any input, all of whose floats are finite
    and UUIDs 128-bit numbers, constructing the model again from the
    serialized record gives that record. *)
Theorem X10_serialized_record_is_read_back :
  forall (L : Library) (v : release) (c : model_class) (x : json)
         (r : list (string * value)),
    validate_and_construct L v c x = Ok r ->
    plain_value (VModel r) = true ->
    validate_and_construct L v c (serialize L r) = Ok r.
Proof.
  intros L v c x r Hr Hp.
  pose proof (validate_typed L v (TModel (fields_of c)) (fields_defaults_typed c)
                [] x (VModel r)) as Ht.
  rewrite validate_model_eq in Ht. unfold validate_and_construct in Hr.
  destruct (as_object L x) as [m|]; [|discriminate].
  rewrite Hr in Ht. specialize (Ht eq_refl).
  pose proof (revalidate L v (TModel (fields_of c)) (fields_well_formed c)
                [] (VModel r) Ht Hp) as Hre.
  rewrite validate_model_eq in Hre. unfold validate_and_construct, serialize.
  destruct (as_object L (dump L (VModel r))) as [m'|]; [|discriminate].
  destruct (validate_fields L v (fields_of c) [] m') as [r'|es]; [|discriminate].
  simpl in Hre. now inversion Hre.
Qed.

Lemma X10_serialized_record_witness :
  validate_and_construct plain_library V2 RecommendRequest
    (serialize plain_library
       [("query", VStr "x");
        ("user_id", VUuid 24249434048109030647017182301789831168);
        ("budget", VInt 1); ("selected_jobs", VList []);
        ("selected_tours", VList [VInt 3])])
  = Ok [("query", VStr "x");
        ("user_id", VUuid 24249434048109030647017182301789831168);
        ("budget", VInt 1); ("selected_jobs", VList []);
        ("selected_tours", VList [VInt 3])].
Proof.
  apply (X10_serialized_record_is_read_back plain_library V2 RecommendRequest
           (JObj [("budget", JBool true); ("query", JStr "x");
                  ("user_id", JStr "123e4567-e89b-12d3-A456-426614174000");
                  ("selected_tours", JArr [JStr "3"])])).
  - reflexivity.
  - reflexivity.
Defined.

Lemma validate_items_ext (f g : list loc_item -> json -> result value) items :
  (forall loc x, f loc x = g loc x) ->
  forall loc i, validate_items f loc i items = validate_items g loc i items.
Proof.
  intros H. induction items as [|x rest IH]; intros loc i; [reflexivity|].
  simpl. now rewrite H, IH.
Qed.

Lemma release_free_model fs :
  release_free (TModel fs)
  = forallb (fun f => negb (is_optional (field_type f)
                            && match field_default f with
                               | Required => true
                               | Default _ => false
                               end)
                      && release_free (field_type f)) fs.
Proof.
  simpl. induction fs as [|[[n ty] d] rest IH]; [reflexivity|].
  simpl. now rewrite IH.
Qed.

(** Where no [Optional] field lacks a default, the release does not matter. *)
Lemma validate_release_free (L : Library) (t : ftype) :
  release_free t = true ->
  forall loc j, validate L V1 t loc j = validate L V2 t loc j.
Proof.
  induction t as [| | | | |t IH|t IH|fs IH] using ftype_nested_ind;
    intros Hrf loc j; try reflexivity.
  - destruct j; try reflexivity. simpl. f_equal.
    apply validate_items_ext. intros loc' x. now apply IH.
  - destruct j; simpl; try reflexivity; now apply IH.
  - rewrite !validate_model_eq. destruct (as_object L j) as [m|]; [|reflexivity].
    f_equal. rewrite release_free_model in Hrf.
    induction fs as [|f rest IHfs]; [reflexivity|].
    simpl in Hrf. apply andb_true_iff in Hrf. destruct Hrf as [Hf Hrest].
    apply andb_true_iff in Hf. destruct Hf as [Hopt Hsub].
    inversion IH as [|? ? IHf IHrest]; subst.
    rewrite !validate_fields_cons, (IHfs IHrest Hrest). f_equal.
    unfold field_result, resolve.
    destruct (assoc (field_name f) m) as [x|]; [now apply IHf|].
    destruct (field_default f); [|reflexivity].
    rewrite andb_true_r in Hopt. apply negb_true_iff in Hopt.
    rewrite Hopt. reflexivity.
Qed.

(** X11.  Of the eight models only ScheduleItem and Itinerary declare an
    [Optional] field without a default.  For each of the other six the two
    releases of the library construct the same record, or report the same
    errors, on every input. *)
Theorem X11_release_matters_only_for_schedule_items :
  forall (L : Library) (c : model_class) (x : json),
    In c [SlotQuery; JobPreview; TourPreview; SlotsResponse;
          RecommendationRequest; RecommendRequest] ->
    validate_and_construct L V1 c x = validate_and_construct L V2 c x.
Proof.
  intros L c x Hc.
  assert (release_free (TModel (fields_of c)) = true) as Hrf.
  { repeat (destruct Hc as [<-|Hc]; [reflexivity|]). contradiction. }
  pose proof (validate_release_free L (TModel (fields_of c)) Hrf [] x) as H.
  rewrite !validate_model_eq in H. unfold validate_and_construct.
  destruct (as_object L x) as [m|]; [|reflexivity].
  destruct (validate_fields L V1 (fields_of c) [] m);
    destruct (validate_fields L V2 (fields_of c) [] m);
    simpl in H; congruence.
Qed.

Lemma X11_release_witness :
  validate_and_construct plain_library V1 TourPreview (JObj tour_members)
  = validate_and_construct plain_library V2 TourPreview (JObj tour_members).
Proof.
  apply (X11_release_matters_only_for_schedule_items plain_library TourPreview).
  simpl. tauto.
Defined.

(** X12.  [SlotsResponse.slots] is an untyped mapping.  When the input
    gives a JSON object for [slots]: a constructed SlotsResponse stores that
    object as given, members unchecked; and if the SlotsResponse is refused,
    none of its errors is located at [slots]. *)
Theorem X12_slots_is_stored_unchecked :
  forall (L : Library) (v : release) (m o : list (string * json)),
    assoc "slots" m = Some (JObj o) ->
    (forall r, validate_and_construct L v SlotsResponse (JObj m) = Ok r ->
       assoc "slots" r = Some (VDict o))
    /\ (forall es e rest,
          validate_and_construct L v SlotsResponse (JObj m) = Err es ->
          In e es -> fst e <> LKey "slots" :: rest).
Proof.
  intros L v m o Hm.
  assert (field_result L v [] m ("slots", TDict, Required) = Ok (VDict o)) as Hs.
  { unfold field_result, field_name, field_type, field_default. simpl.
    now rewrite Hm. }
  split.
  - intros r Hr. unfold validate_and_construct in Hr. simpl as_object in Hr.
    destruct (validate_fields_assoc L v _ _ _ _ ("slots", TDict, Required)
                Hr eq_refl) as [a [Ha Hres]]; [simpl; tauto|].
    rewrite Hs in Hres. inversion Hres; subst a. exact Ha.
  - intros es e rest Hes He Hloc.
    assert (errors_of (validate_and_construct L v SlotsResponse (JObj m)) = es) as Hq
      by now rewrite Hes.
    change (errors_of (validate_fields L v (fields_of SlotsResponse) [] m) = es) in Hq.
    rewrite validate_fields_errors in Hq. rewrite <- Hq in He.
    apply in_flat_map in He. destruct He as [f [Hf He]].
    pose proof (field_result_located L v [] m f) as Hl.
    unfold located in Hl. rewrite Forall_forall in Hl.
    destruct (Hl e He) as [rest' Hr'].
    rewrite Hloc in Hr'. simpl in Hr'. inversion Hr' as [Hname].
    simpl in Hf. destruct Hf as [<-|[<-|[<-|[]]]].
    + rewrite Hs in He. exact He.
    + discriminate Hname.
    + discriminate Hname.
Qed.

Lemma X12_slots_witness :
  assoc "slots"
    [("slots", VDict [("region", JStr "Gochang"); ("days", JArr [JInt 1; JNull])]);
     ("jobs_preview", VList []); ("tours_preview", VList [])]
  = Some (VDict [("region", JStr "Gochang"); ("days", JArr [JInt 1; JNull])]).
Proof.
  apply (proj1 (X12_slots_is_stored_unchecked plain_library V2
                  [("slots", JObj [("region", JStr "Gochang");
                                   ("days", JArr [JInt 1; JNull])]);
                   ("jobs_preview", JArr []); ("tours_preview", JArr [])]
                  [("region", JStr "Gochang"); ("days", JArr [JInt 1; JNull])]
                  eq_refl)).
  reflexivity.
Defined.

Lemma validate_list_eq L v (t : ftype) loc items :
  validate L v (TList t) loc (JArr items)
  = result_map VList (validate_items (validate L v t) loc 0 items).
Proof. reflexivity. Qed.

(** X13.  A card of a SlotsResponse that does not give one of its required
    fields is reported by card list, card index and field name: the errors of
    the response contain "missing" at [jobs_preview], index, field (and
    likewise for [tours_preview]). *)
Theorem X13_card_missing_field_is_located :
  forall (L : Library) (v : release) (m : list (string * json))
         (n : string) (fs : list field) (d : default) (items : list json)
         (k : nat) (mk : list (string * json))
         (fn : string) (ty : ftype) (fd : default),
    In (n, TList (TModel fs), d) (fields_of SlotsResponse) ->
    assoc n m = Some (JArr items) ->
    nth_error items k = Some (JObj mk) ->
    In (fn, ty, fd) fs ->
    required v ty fd = true ->
    assoc fn mk = None ->
    exists es,
      validate_and_construct L v SlotsResponse (JObj m) = Err es
      /\ In ([LKey n; LIdx k; LKey fn], EMissing) es.
Proof.
  intros L v m n fs d items k mk fn ty fd Hin Hm Hk Hfn Hreq Hmk.
  destruct (validate_fields_err L v fs [LKey n; LIdx k] mk (fn, ty, fd)
              [([LKey n; LIdx k; LKey fn], EMissing)] Hfn) as [es1 [Hes1 Hincl1]].
  { now apply (field_result_missing L v [LKey n; LIdx k]). }
  assert (validate L v (TModel fs) [LKey n; LIdx k] (JObj mk) = Err es1) as Hcard.
  { rewrite validate_model_eq. cbn [as_object]. now rewrite Hes1. }
  destruct (validate_items_nth_err (validate L v (TModel fs)) items [LKey n] 0 k
              (JObj mk) es1 Hk Hcard) as [es2 [Hes2 Hincl2]].
  destruct (validate_fields_err L v (fields_of SlotsResponse) [] m
              (n, TList (TModel fs), d) es2 Hin) as [es [Hes Hincl]].
  { unfold field_result, field_name, field_type, field_default, resolve.
    cbn [fst snd app]. rewrite Hm, validate_list_eq, Hes2. reflexivity. }
  exists es. split; [exact Hes|].
  apply Hincl, Hincl2, Hincl1. now left.
Qed.

Lemma X13_card_missing_field_witness :
  exists es,
    validate_and_construct plain_library V2 SlotsResponse
      (JObj [("slots", JObj []);
             ("jobs_preview", JArr []);
             ("tours_preview",
              JArr [JObj tour_members;
                    JObj [("content_id", JInt 2); ("region", JStr "r");
                          ("overview", JStr "o")]])]) = Err es
    /\ In ([LKey "tours_preview"; LIdx 1; LKey "title"], EMissing) es.
Proof.
  apply (X13_card_missing_field_is_located plain_library V2
           [("slots", JObj []);
            ("jobs_preview", JArr []);
            ("tours_preview",
             JArr [JObj tour_members;
                   JObj [("content_id", JInt 2); ("region", JStr "r");
                         ("overview", JStr "o")]])]
           "tours_preview" TourPreview_fields Required
           [JObj tour_members;
            JObj [("content_id", JInt 2); ("region", JStr "r"); ("overview", JStr "o")]]
           1
           [("content_id", JInt 2); ("region", JStr "r"); ("overview", JStr "o")]
           "title" TStr Required).
  - simpl. tauto.
  - reflexivity.
  - reflexivity.
  - simpl. tauto.
  - reflexivity.
  - reflexivity.
Defined.

Lemma validate_fields_app L v (fs1 fs2 : list field) loc m :
  validate_fields L v (fs1 ++ fs2) loc m
  = match validate_fields L v fs1 loc m, validate_fields L v fs2 loc m with
    | Ok r1, Ok r2 => Ok (r1 ++ r2)
    | Ok _, Err es2 => Err es2
    | Err es1, Ok _ => Err es1
    | Err es1, Err es2 => Err (es1 ++ es2)
    end.
Proof.
  induction fs1 as [|f rest IH].
  - simpl. now destruct (validate_fields L v fs2 loc m).
  - rewrite <- app_comm_cons, !validate_fields_cons, IH.
    destruct (field_result L v loc m f) as [a|ef];
      destruct (validate_fields L v rest loc m) as [r1|es1];
      destruct (validate_fields L v fs2 loc m) as [r2|es2];
      simpl; try reflexivity.
    now rewrite app_assoc.
Qed.

(** X14.  RecommendRequest extends RecommendationRequest without changing
    what the base reads: every input accepted as a RecommendRequest is
    accepted as a RecommendationRequest, and the base record is the first
    three fields (query, user_id, budget) of the extended one. *)
Theorem X14_recommend_request_refines_its_base :
  forall (L : Library) (v : release) (x : json) (r : list (string * value)),
    validate_and_construct L v RecommendRequest x = Ok r ->
    validate_and_construct L v RecommendationRequest x = Ok (firstn 3 r).
Proof.
  intros L v x r Hr. unfold validate_and_construct in *.
  destruct (as_object L x) as [m|]; [|discriminate].
  change (fields_of RecommendRequest)
    with (fields_of RecommendationRequest ++ declared RecommendRequest) in Hr.
  rewrite validate_fields_app in Hr.
  destruct (validate_fields L v (fields_of RecommendationRequest) [] m)
    as [r1|es1] eqn:H1;
    destruct (validate_fields L v (declared RecommendRequest) [] m) as [r2|es2];
    try discriminate.
  inversion Hr; subst r. f_equal.
  apply validate_fields_keys in H1.
  destruct r1 as [|a1 [|a2 [|a3 [|a4 r1]]]]; try discriminate H1.
  reflexivity.
Qed.

Lemma X14_recommend_request_witness :
  validate_and_construct plain_library V2 RecommendationRequest
    (JObj [("query", JStr "trip"); ("budget", JInt 100000);
           ("selected_jobs", JArr [JInt 4])])
  = Ok (firstn 3 [("query", VStr "trip"); ("user_id", VNone);
                  ("budget", VInt 100000); ("selected_jobs", VList [VInt 4]);
                  ("selected_tours", VList [])]).
Proof.
  apply (X14_recommend_request_refines_its_base plain_library V2).
  reflexivity.
Defined.

(** X15.  A body accepted as a RecommendationRequest that gives neither
    [selected_jobs] nor [selected_tours] is accepted as a RecommendRequest:
    the record is the base record followed by the two lists, both empty. *)
Theorem X15_base_body_is_a_recommend_request :
  forall (L : Library) (v : release) (m : list (string * json))
         (r0 : list (string * value)),
    validate_and_construct L v RecommendationRequest (JObj m) = Ok r0 ->
    assoc "selected_jobs" m = None ->
    assoc "selected_tours" m = None ->
    validate_and_construct L v RecommendRequest (JObj m)
    = Ok (r0 ++ [("selected_jobs", VList []); ("selected_tours", VList [])]).
Proof.
  intros L v m r0 Hr0 Hj Ht. unfold validate_and_construct in *.
  cbn [as_object] in *.
  change (fields_of RecommendRequest)
    with (fields_of RecommendationRequest ++ declared RecommendRequest).
  rewrite validate_fields_app, Hr0.
  unfold declared, RecommendRequest_own.
  rewrite !validate_fields_cons. unfold field_result, field_name, field_type,
    field_default. cbn [fst snd]. rewrite Hj, Ht. reflexivity.
Qed.

Lemma X15_base_body_witness :
  validate_and_construct plain_library V2 RecommendRequest (JObj scenario_B)
  = Ok ([("query", VStr "trip"); ("user_id", VNone); ("budget", VInt 100000)]
        ++ [("selected_jobs", VList []); ("selected_tours", VList [])]).
Proof.
  apply (X15_base_body_is_a_recommend_request plain_library V2 scenario_B).
  - reflexivity.
  - reflexivity.
  - reflexivity.
Defined.

(** What [refused] lists is refused by every library, with one error, at the
    place of the value. *)
Lemma refused_sound L v (t : ftype) :
  forall loc j, refused t j = true -> validate L v t loc j = Err [(loc, EInvalid)].
Proof.
  induction t as [| | | | |t IH|t IH|fs _] using ftype_nested_ind;
    intros loc j H; destruct j; simpl in H; try discriminate H;
    try reflexivity; try (now apply IH).
  - simpl. unfold int_of_string.
    destruct (signed_decimal s); [discriminate H|]. now rewrite H.
  - simpl. unfold uuid_of_string.
    destruct (hyphenated_uuid s); [discriminate H|]. now rewrite H.
Qed.

(** C3 (as amended).  For every model and every declared field, an input
    object whose value for the field the field's validation refuses fails
    construction, the errors of the value being among the errors reported,
    all located at that field or below it.  Whatever conversions the library
    performs, this is the case of: null for a field that is not [Optional];
    an array or an object for a string, integer or float field; a string
    that contains a letter and is not signed decimal digits for an integer
    field; a value that is not a string, or a string of fewer than 32
    characters, for a UUID field; a value that is not an array for a list
    field.  For these the error is at the field itself.  Scenario D fails
    with exactly one error, at [budget].  (A value of another JSON type that
    converts, such as a string of digits or a boolean for an integer field,
    is accepted.) *)
Theorem C3_unconvertible_value_is_refused :
  forall (L : Library) (v : release),
    (forall c m n ty d j,
       In (n, ty, d) (fields_of c) -> assoc n m = Some j ->
       refused ty j = true ->
       exists es, validate_and_construct L v c (JObj m) = Err es
                  /\ In ([LKey n], EInvalid) es)
    /\ (forall c m n ty d j es0,
       In (n, ty, d) (fields_of c) -> assoc n m = Some j ->
       validate L v ty [LKey n] j = Err es0 ->
       exists es, validate_and_construct L v c (JObj m) = Err es
                  /\ incl es0 es /\ located [LKey n] es0)
    /\ validate_and_construct L v RecommendationRequest scenario_D
       = Err [([LKey "budget"], EInvalid)].
Proof.
  intros L v.
  assert (forall c m n ty d j es0,
            In (n, ty, d) (fields_of c) -> assoc n m = Some j ->
            validate L v ty [LKey n] j = Err es0 ->
            exists es, validate_and_construct L v c (JObj m) = Err es
                       /\ incl es0 es) as Hfield.
  { intros c m n ty d j es0 Hin Hm Hj.
    apply (validate_fields_err L v (fields_of c) [] m (n, ty, d) es0 Hin).
    unfold field_result, field_name, field_type, field_default, resolve.
    cbn [fst snd app]. now rewrite Hm. }
  split; [|split].
  - intros c m n ty d j Hin Hm Href.
    destruct (Hfield c m n ty d j [([LKey n], EInvalid)] Hin Hm) as [es [Hes Hincl]].
    + now apply refused_sound.
    + exists es. split; [exact Hes|]. apply Hincl. now left.
  - intros c m n ty d j es0 Hin Hm Hj.
    destruct (Hfield c m n ty d j es0 Hin Hm Hj) as [es [Hes Hincl]].
    exists es. split; [exact Hes|]. split; [exact Hincl|].
    pose proof (validate_located L v ty [LKey n] j) as Hloc.
    now rewrite Hj in Hloc.
  - reflexivity.
Qed.

Lemma C3_unconvertible_value_witness :
  (exists es,
     validate_and_construct plain_library V2 RecommendRequest
       (JObj [("query", JStr "x"); ("budget", JInt 1);
              ("user_id", JStr "not-a-uuid")]) = Err es
     /\ In ([LKey "user_id"], EInvalid) es)
  /\ (exists es,
     validate_and_construct plain_library V2 JobPreview
       (JObj [("job_id", JStr "abc"); ("farm_name", JStr "f");
              ("region", JStr "r"); ("tags", JArr [])]) = Err es
     /\ In ([LKey "job_id"], EInvalid) es)
  /\ (exists es,
     validate_and_construct plain_library V2 RecommendationRequest
       (JObj [("query", JStr "x"); ("budget", JArr [JInt 1])]) = Err es
     /\ In ([LKey "budget"], EInvalid) es).
Proof.
  split; [|split].
  - apply (proj1 (C3_unconvertible_value_is_refused plain_library V2)
             RecommendRequest
             [("query", JStr "x"); ("budget", JInt 1); ("user_id", JStr "not-a-uuid")]
             "user_id" (TOptional TUuid) (Default VNone) (JStr "not-a-uuid")).
    + simpl. tauto.
    + reflexivity.
    + reflexivity.
  - apply (proj1 (C3_unconvertible_value_is_refused plain_library V2)
             JobPreview
             [("job_id", JStr "abc"); ("farm_name", JStr "f");
              ("region", JStr "r"); ("tags", JArr [])]
             "job_id" TInt Required (JStr "abc")).
    + simpl. tauto.
    + reflexivity.
    + reflexivity.
  - apply (proj1 (C3_unconvertible_value_is_refused plain_library V2)
             RecommendationRequest
             [("query", JStr "x"); ("budget", JArr [JInt 1])]
             "budget" TInt Required (JArr [JInt 1])).
    + simpl. tauto.
    + reflexivity.
    + reflexivity.
Defined.
